(** * Grid: the Torch hook service (grid/services/torch/hook_service.py)

    A shallow embedding of [HookService]: command compilation, location
    resolution and dispatch of intercepted Torch calls, the [send_]/[get_]
    pointer operations, the memoised [Variable.data]/[Variable.grad]
    properties and the pass that installs the hooks on a Torch class.

    Python objects are modelled by a small universe of values, Python
    dictionaries by association lists (insertion order is the iteration
    order), exceptions by an error type, and the effects of the service
    (registry writes, messages handed to the worker, identifiers drawn) by
    a state-and-error monad over an event trace. *)

From Stdlib Require Import List String Ascii ZArith Bool Lia.
Import ListNotations.
Open Scope string_scope.
Open Scope bool_scope.
Open Scope Z_scope.
Set Warnings "-register-all".

(** ** Exceptions and results *)

Inductive exn : Set :=
| AttributeError
| IndexError
| KeyError
| NameError
| NotImplementedError
| TypeError
| UnboundLocalError.

Inductive result (A : Type) : Type :=
| Ok (a : A)
| Raise (e : exn).

Arguments Ok {A} a.
Arguments Raise {A} e.

Definition rbind {A B : Type} (r : result A) (k : A -> result B) : result B :=
  match r with
  | Ok a => k a
  | Raise e => Raise e
  end.

Notation "'let?' x ':=' r 'in' k" := (rbind r (fun x => k))
  (at level 10, x pattern, r at level 100, k at level 200).

Fixpoint rmap {A B : Type} (f : A -> result B) (l : list A) : result (list B) :=
  match l with
  | [] => Ok []
  | a :: l' =>
      let? b := f a in
      let? bs := rmap f l' in
      Ok (b :: bs)
  end.

(** ** Torch objects and Python values *)

Definition worker_id := string.

(** The attributes the registry puts on a tracked instance. *)
Record registration : Set := mk_registration {
  id : Z;
  owners : list worker_id;
  is_pointer : bool
}.

(** A Tensor or Variable instance: the name of its class, its storage, the
    registry attributes when it has been registered, and the names of the
    further attributes the instance answers to, as far as the service asks
    for one ([owner], [send_command], the memo flags of a Variable). *)
Record torch_obj : Set := mk_torch_obj {
  torch_type : string;
  storage : list Z;
  reg : option registration;
  attrs : list string
}.

Inductive value : Set :=
| VNone
| VBool (b : bool)
| VInt (z : Z)
| VStr (s : string)
| VList (l : list value)
| VTuple (l : list value)
| VDict (d : list (string * value))
| VObj (o : torch_obj).

Definition dict := list (string * value).

(** [type(x).__name__] *)
Definition type_name (x : value) : string :=
  match x with
  | VNone => "NoneType"
  | VBool _ => "bool"
  | VInt _ => "int"
  | VStr _ => "str"
  | VList _ => "list"
  | VTuple _ => "tuple"
  | VDict _ => "dict"
  | VObj o => torch_type o
  end.

(** The type tag of a value, as the commands carry it. *)
Definition tag (x : value) : value := VStr (type_name x).

(** ** Dictionaries *)

Fixpoint dict_find {A : Type} (d : list (string * A)) (k : string) : option A :=
  match d with
  | [] => None
  | (k', v) :: d' => if String.eqb k k' then Some v else dict_find d' k
  end.

(** [d[k]] *)
Definition dict_get (d : dict) (k : string) : result value :=
  match dict_find d k with
  | Some v => Ok v
  | None => Raise KeyError
  end.

(** [d[k] = v]: an existing key keeps its position, a new one goes last. *)
Fixpoint dict_set {A : Type} (d : list (string * A)) (k : string) (v : A)
  : list (string * A) :=
  match d with
  | [] => [(k, v)]
  | (k', v') :: d' =>
      if String.eqb k k' then (k, v) :: d' else (k', v') :: dict_set d' k v
  end.

Definition keys {A : Type} (d : list (string * A)) : list string := map fst d.

(** [x[k]] for a string key [k] on an arbitrary value: only a dictionary
    can answer; every other type raises [TypeError] (not subscriptable, or
    indices must be integers). *)
Definition getitem (x : value) (k : string) : result value :=
  match x with
  | VDict d => dict_get d k
  | _ => Raise TypeError
  end.

(** [l[0]] *)
Definition first {A : Type} (l : list A) : result A :=
  match l with
  | a :: _ => Ok a
  | [] => Raise IndexError
  end.

(** ** Command compilation *)

(** A function object, as far as the service looks at it. *)
Record function : Set := mk_function {
  __name__ : string;
  __qualname__ : string
}.

(** A [functools.partial] / [functools.partialmethod] object. *)
Record partial : Set := mk_partial {
  func : function;
  args : list value;
  keywords : dict
}.

(** [[type(kwargs[x]).__name__ for x in kwargs]] *)
Definition kwarg_type_names (kwargs : dict) : result (list value) :=
  rmap (fun x => let? v := dict_get kwargs x in Ok (VStr (type_name v)))
       (keys kwargs).

Definition compile_command (partial_func : partial) (has_self : bool)
  : result dict :=
  let func := func partial_func in
  let args := args partial_func in
  let kwargs := keywords partial_func in
  let command : dict := [] in
  let command := dict_set command "has_self" (VBool has_self) in
  let? (command, args) :=
    (if has_self
     then let? self := first args in
          Ok (dict_set command "self" self, tl args)
     else Ok (command, args)) in
  let command := dict_set command "command" (VStr (__name__ func)) in
  let command := dict_set command "args" (VTuple args) in
  let command := dict_set command "kwargs" (VDict kwargs) in
  let command :=
    dict_set command "arg_types" (VList (map (fun x => VStr (type_name x)) args)) in
  let? kwarg_types := kwarg_type_names kwargs in
  let command := dict_set command "kwarg_types" (VList kwarg_types) in
  Ok command.

(** The shape the command record is described with: keyword tags keyed by
    the keyword's name. *)
Definition kwarg_types_by_name (kwargs : dict) : value :=
  VDict (map (fun kv => (fst kv, VStr (type_name (snd kv)))) kwargs).

(** ** The service's environment and state *)

(** What the service is given from outside this file: the identity of the
    local worker, the tracked Torch classes (attributes of [BaseService]),
    the original Torch callables, what instances answer when one of their
    attributes is called, and the remote workers, seen through the
    messaging layer as the answers they give. *)
Record environment : Type := mk_environment {
  me : worker_id;
  tensor_types : list string;
  tensorvar_types : list string;
  torch_call : function -> list value -> dict -> result value;
  instance_call : torch_obj -> string -> list value -> result value;
  command_response : worker_id -> dict -> value;
  obj_response : worker_id -> Z -> torch_obj
}.

(** What leaves the service: writes to the object registry, calls of the
    original Torch callables and the three uses of the worker's messaging
    interface. *)
Inductive event : Type :=
| Registered (o : torch_obj)
| Executed (f : function) (args : list value) (kwargs : dict)
| Published (recipient : worker_id) (payload : torch_obj)
| RequestedObj (sender : worker_id) (obj_id : Z)
| SentCommand (recipient : worker_id) (command : dict).

Record state : Type := mk_state {
  next_id : Z;
  trace : list event
}.

Definition is_message (e : event) : bool :=
  match e with
  | Published _ _ => true
  | RequestedObj _ _ => true
  | SentCommand _ _ => true
  | _ => false
  end.

Definition messages (st : state) : list event := filter is_message (trace st).

Definition is_registered (e : event) : bool :=
  match e with
  | Registered _ => true
  | _ => false
  end.

(** Computations of the service: they read and extend the state and end
    with a value or with an exception; what was done before an exception
    stays done. *)
Definition M (A : Type) : Type := state -> result A * state.

Definition ret {A : Type} (a : A) : M A := fun st => (Ok a, st).

Definition raise {A : Type} (e : exn) : M A := fun st => (Raise e, st).

Definition bind {A B : Type} (m : M A) (k : A -> M B) : M B :=
  fun st =>
    match m st with
    | (Ok a, st') => k a st'
    | (Raise e, st') => (Raise e, st')
    end.

Definition lift {A : Type} (r : result A) : M A := fun st => (r, st).

Definition log (e : event) : M unit :=
  fun st => (Ok tt, mk_state (next_id st) (trace st ++ [e])).

Definition fresh_id : M Z :=
  fun st => (Ok (next_id st), mk_state (next_id st + 1) (trace st)).

Notation "x <- c1 ;; c2" := (bind c1 (fun x => c2))
  (at level 61, c1 at next level, right associativity).

(** [try: body except KeyError: handler] *)
Definition except_KeyError {A : Type} (body handler : M A) : M A :=
  fun st =>
    match body st with
    | (Raise KeyError, st') => handler st'
    | r => r
    end.

(** ** Attribute access on Torch instances *)

Definition mem (s : string) (l : list string) : bool := existsb (String.eqb s) l.

Definition hasattr (o : torch_obj) (name : string) : bool := mem name (attrs o).

Definition setattr_flag (o : torch_obj) (name : string) : torch_obj :=
  mk_torch_obj (torch_type o) (storage o) (reg o)
    (if hasattr o name then attrs o else attrs o ++ [name]).

(** [o.id], [o.owners], [o.is_pointer]: set by the registry only. *)
Definition get_reg {A : Type} (f : registration -> A) (o : torch_obj) : result A :=
  match reg o with
  | Some r => Ok (f r)
  | None => Raise AttributeError
  end.

(** Calling the attribute [name] of [o], for a name the registry does not
    manage: the lookup comes first and fails when the instance has no such
    attribute. *)
Definition call_attr (E : environment) (o : torch_obj) (name : string)
    (args : list value) : M value :=
  if hasattr o name then lift (instance_call E o name args)
  else raise AttributeError.

(** ** The object registry *)

(** Keyword arguments of [register_object]; [None] is an omitted one. *)
Record reg_kwargs : Set := mk_reg_kwargs {
  kw_id : option Z;
  kw_owners : option (list worker_id);
  kw_is_pointer : option bool
}.

(** An instance with the registry attributes set to [r]. *)
Definition registered_as (obj : torch_obj) (r : registration) : torch_obj :=
  mk_torch_obj (torch_type obj) (storage obj) (Some r) (attrs obj).

(** Modelled from the spec: [BaseService.register_object], which is not in
    hook_service.py. The registry contract is
    [register(object, id?, owners?, isPointer?) -> object] with those fields
    set, a fresh id being assigned when [id] is omitted. For the other two
    omitted fields the spec fixes the outcome where it describes the
    callers: an object registered without [is_pointer] is a non-pointer
    (the payloads collected by [get] and the handle [get] re-registers);
    an object registered without [owners] gets the local worker as its
    owner when it is new (construction, local results) and keeps the
    owners it has otherwise ([get] does not reset them). Fresh ids are
    drawn from a counter. *)
Definition register_object (E : environment) (obj : torch_obj) (kw : reg_kwargs)
  : M torch_obj :=
  i <- match kw_id kw with
       | Some i => ret i
       | None => fresh_id
       end ;;
  let ws := match kw_owners kw with
            | Some ws => ws
            | None => match reg obj with
                      | Some r => owners r
                      | None => [me E]
                      end
            end in
  let p := match kw_is_pointer kw with
           | Some b => b
           | None => false
           end in
  let obj' := registered_as obj (mk_registration i ws p) in
  _ <- log (Registered obj') ;;
  ret obj'.

Definition as_int (x : value) : result Z :=
  match x with
  | VInt z => Ok z
  | _ => Raise TypeError
  end.

Definition as_bool (x : value) : result bool :=
  match x with
  | VBool b => Ok b
  | _ => Raise TypeError
  end.

Definition as_str (x : value) : result string :=
  match x with
  | VStr s => Ok s
  | _ => Raise TypeError
  end.

Definition as_workers (x : value) : result (list worker_id) :=
  match x with
  | VList l => rmap as_str l
  | VTuple l => rmap as_str l
  | _ => Raise TypeError
  end.

Definition optional {A : Type} (d : dict) (k : string) (f : value -> result A)
  : result (option A) :=
  match dict_find d k with
  | Some v => let? a := f v in Ok (Some a)
  | None => Ok None
  end.

(** [**registration]: the registration dictionary of a response, unpacked
    into the keyword arguments of [register_object]. The registry's fields
    are an integer id, a sequence of worker ids and a boolean; anything
    that is not a dictionary of that shape is refused with [TypeError]. *)
Definition registration_kwargs (registration : value) : result reg_kwargs :=
  match registration with
  | VDict d =>
      let? i := optional d "id" as_int in
      let? ws := optional d "owners" as_workers in
      let? p := optional d "is_pointer" as_bool in
      Ok (mk_reg_kwargs i ws p)
  | _ => Raise TypeError
  end.

(** ** Hooked constructors *)

Definition blank (cls : string) : torch_obj := mk_torch_obj cls [] None [].

Definition only_is_pointer (b : bool) : reg_kwargs :=
  mk_reg_kwargs None None (Some b).

(** [hook_tensor___new__] and [hook_var___new__]: the original [__new__],
    then registration as a non-pointer. *)
Definition new___new__ (E : environment) (o : torch_obj) : M torch_obj :=
  register_object E o (only_is_pointer false).

(** [hook_tensor___init__] *)
Definition new___init__ (E : environment) (self : torch_obj) : M torch_obj :=
  register_object E self (only_is_pointer false).

(** [cls(0)] on a hooked class: a zero-sized instance goes through the
    hooked [__new__]; tensor classes have a hooked [__init__] as well. *)
Definition construct_empty (E : environment) (cls : string) : M torch_obj :=
  o <- new___new__ E (blank cls) ;;
  if mem cls (tensor_types E) then new___init__ E o else ret o.

(** [self.old_set_(source)]: Torch's in-place [set_], saved under the
    reserved prefix by the hooking pass; [self] takes over the storage of
    [source] and is returned. *)
Definition old_set_ (self source : torch_obj) : torch_obj :=
  mk_torch_obj (torch_type self) (storage source) (reg self) (attrs self).

(** ** Location resolution (grid.lib.torch_utils) *)

Definition tracked (E : environment) (x : value) : bool :=
  match x with
  | VObj o => mem (torch_type o) (tensorvar_types E)
  | _ => false
  end.

Definition tensorvar_of (E : environment) (x : value) : list torch_obj :=
  match x with
  | VObj o => if tracked E x then [o] else []
  | _ => []
  end.

(** Modelled from the spec: [tu.get_tensorvars], which is not in
    hook_service.py. Given a command it collects every tensor-like operand:
    [self], then the positional, then the keyword operands. *)
Definition get_tensorvars (E : environment) (command : dict) : list torch_obj :=
  match dict_find command "self" with
  | Some x => tensorvar_of E x
  | None => []
  end
  ++ match dict_find command "args" with
     | Some (VTuple l) => flat_map (tensorvar_of E) l
     | _ => []
     end
  ++ match dict_find command "kwargs" with
     | Some (VDict d) => flat_map (fun kv => tensorvar_of E (snd kv)) d
     | _ => []
     end.

Definition remote (o : torch_obj) : bool :=
  match reg o with
  | Some r => is_pointer r
  | None => false
  end.

Definition owners_of (o : torch_obj) : list worker_id :=
  match reg o with
  | Some r => owners r
  | None => []
  end.

(** Modelled from the spec: [tu.check_remote], which is not in
    hook_service.py. The operands are partitioned into local
    ([is_pointer=false]) and remote ([is_pointer=true]); the answer is
    whether any is remote. *)
Definition check_remote (tensorvars : list torch_obj) : bool :=
  existsb remote tensorvars.

(** Modelled from the spec: [tu.get_owners], which is not in
    hook_service.py. It computes the union of the operands' [owners] and
    tells whether that union has more than one distinct worker. *)
Definition get_owners (tensorvars : list torch_obj) : bool * list worker_id :=
  let owners := nodup string_dec (flat_map owners_of tensorvars) in
  ((1 <? List.length owners)%nat, owners).

(** A reference-only descriptor of a tracked instance: id and owners, no
    payload. *)
Definition reference (r : registration) : value :=
  VDict [("id", VInt (id r)); ("owners", VList (map VStr (owners r)))].

Definition replace_tensorvar (E : environment) (x : value) : value :=
  match x with
  | VObj o =>
      match reg o with
      | Some r => if tracked E x && is_pointer r then reference r else x
      | None => x
      end
  | _ => x
  end.

(** Modelled from the spec: [tu.replace_in_command], which is not in
    hook_service.py. It rewrites the remote tensor operands of the command
    ([self], positional, keyword) to reference-only descriptors. *)
Definition replace_in_command (E : environment) (command : dict) : dict :=
  map (fun kv : string * value =>
         let (k, v) := kv in
         if String.eqb k "self" then (k, replace_tensorvar E v)
         else if String.eqb k "args" then
           (k, match v with
               | VTuple l => VTuple (map (replace_tensorvar E) l)
               | _ => v
               end)
         else if String.eqb k "kwargs" then
           (k, match v with
               | VDict d =>
                   VDict (map (fun kv => (fst kv, replace_tensorvar E (snd kv))) d)
               | _ => v
               end)
         else kv)
      command.

(** Modelled from the spec: [tu.types_guard], which is not in
    hook_service.py. It resolves the result type named in a response to
    the tracked class of that name; its caller shows that an unrecognized
    type makes it raise [KeyError]. *)
Definition types_guard (E : environment) (torch_type : value) : result string :=
  match torch_type with
  | VStr s => if mem s (tensorvar_types E) then Ok s else Raise KeyError
  | _ => Raise KeyError
  end.

(** Destinations as [send_] accepts them: one address or a sequence. *)
Inductive destinations : Set :=
| Address (w : worker_id)
| Addresses (ws : list worker_id).

(** Modelled from the spec: [tu.check_workers], which is not in
    hook_service.py. It normalizes the destinations to an ordered
    sequence, making a singleton of a lone address. *)
Definition check_workers (workers : destinations) : list worker_id :=
  match workers with
  | Address w => [w]
  | Addresses ws => ws
  end.

(** ** Name resolution in the module *)

(** The names bound at the top of hook_service.py: its imports, the names
    the star import takes from [types] (those of [types.__all__], none of
    which starts with an underscore), and the class. *)
Definition module_globals : list string :=
  ["torch"; "BaseService"; "channels"; "utils"; "tu"; "OrderedDict"; "wraps";
   "partial"; "partialmethod"; "inspect"; "random"; "re";
   "FunctionType"; "LambdaType"; "CodeType"; "MappingProxyType";
   "SimpleNamespace"; "GeneratorType"; "CoroutineType"; "AsyncGeneratorType";
   "MethodType"; "BuiltinFunctionType"; "BuiltinMethodType"; "ModuleType";
   "TracebackType"; "FrameType"; "GetSetDescriptorType";
   "MemberDescriptorType"; "new_class"; "prepare_class";
   "DynamicClassAttribute"; "coroutine"; "HookService"].

(** Reading a variable inside a function body: its locals, then the module
    (the builtins are left out: the one name looked up this way starts
    with a single underscore, which no builtin does). *)
Definition read_name (locals : list string) (name : string) : result unit :=
  if mem name (locals ++ module_globals) then Ok tt else Raise NameError.

(** ** Registration and communication handlers *)

(** Modelled from the spec: [obj.ser(include_data)], installed by
    [tu.hook_tensor_ser], which is not in hook_service.py. The wire
    payload of an object is the object, with its data when asked for. *)
Definition ser (obj : torch_obj) (include_data : bool) : torch_obj :=
  if include_data then obj
  else mk_torch_obj (torch_type obj) [] (reg obj) (attrs obj).

Definition send_obj (obj : torch_obj) (recipient : worker_id) : M unit :=
  log (Published recipient (ser obj true)).

Definition request_obj (E : environment) (obj : torch_obj) (sender : worker_id)
  : M torch_obj :=
  i <- lift (get_reg id obj) ;;
  _ <- log (RequestedObj sender i) ;;
  ret (obj_response E sender i).

(** [process_response]; the response is taken as [utils.unpack] leaves it. *)
Definition process_response (response : value) : result value :=
  match getitem response "numeric" with
  | Ok v => Ok v
  | Raise KeyError => Ok response
  | Raise e => Raise e
  end.

Definition send_command (E : environment) (command : dict) (recipient : worker_id)
  : M value :=
  _ <- log (SentCommand recipient command) ;;
  lift (process_response (command_response E recipient command)).

Definition assemble_result_pointer (E : environment)
    (registration torch_type : value) : M torch_obj :=
  match types_guard E torch_type with
  | Ok cls =>
      result <- construct_empty E cls ;;
      kw <- lift (registration_kwargs registration) ;;
      register_object E result kw
  | Raise KeyError =>
      (* the message of the TypeError is built from [_tensor_type] *)
      _ <- lift (read_name ["self"; "registration"; "torch_type"] "_tensor_type") ;;
      raise TypeError
  | Raise e => raise e
  end.

(** ** General hooking wrappers *)

Definition pass_func_args (func : function) (args : list value) (kwargs : dict)
  : partial :=
  mk_partial func args kwargs.

Definition pass_method_args (method : function) (args : list value) (kwargs : dict)
  : partial :=
  mk_partial method args kwargs.

(** [part.func] applied to the arguments of the call: the original Torch
    callable runs in-process. *)
Definition call_original (E : environment) (part : partial) (args : list value)
    (kwargs : dict) : M value :=
  _ <- log (Executed (func part) args kwargs) ;;
  lift (torch_call E (func part) args kwargs).

(** The end of the local branch, shared by both wrappers: a result of a
    tracked type is registered as a non-pointer unless [skip] holds for
    it. *)
Definition register_result (E : environment) (skip : torch_obj -> bool)
    (result : value) : M value :=
  match result with
  | VObj o =>
      if tracked E result && negb (skip o)
      then o' <- register_object E o (only_is_pointer false) ;; ret (VObj o')
      else ret result
  | _ => ret result
  end.

(** The loop over the owners in [overload_function]; [pointer] is the
    local variable of that name, unbound until an iteration assigns it. *)
Fixpoint function_workers (E : environment) (command : dict)
    (owners : list worker_id) (pointer : option torch_obj) : M value :=
  match owners with
  | [] =>
      match pointer with
      | Some p => ret (VObj p)
      | None => raise UnboundLocalError
      end
  | worker :: owners' =>
      response <- send_command E command worker ;;
      assembled <- except_KeyError
                     (registration <- lift (getitem response "registration") ;;
                      torch_type <- lift (getitem response "torch_type") ;;
                      pointer <- assemble_result_pointer E registration torch_type ;;
                      ret (Some pointer))
                     (ret None) ;;
      match assembled with
      | Some pointer => function_workers E command owners' (Some pointer)
      | None => ret response
      end
  end.

(** [overload_function(passer)], applied to the arguments of a call. *)
Definition overload_function (E : environment)
    (passer : list value -> dict -> partial) (args : list value) (kwargs : dict)
  : M value :=
  let part := passer args kwargs in
  command <- lift (compile_command part false) ;;
  let tensorvars := get_tensorvars E command in
  let has_remote := check_remote tensorvars in
  if has_remote then
    let (multiple_owners, owners) := get_owners tensorvars in
    if multiple_owners then raise NotImplementedError
    else
      let command := replace_in_command E command in
      function_workers E command owners None
  else
    result <- call_original E part args kwargs ;;
    register_result E (fun _ => false) result.

(** The loop over the owners in [overload_method]. Inside the wrapper
    [self] is the Torch instance the method was called on (the service is
    [service_self]), so [self.send_command] and
    [self.assemble_result_pointer] are attribute lookups on that instance;
    the callee of a call is looked up before its arguments are evaluated. *)
Fixpoint method_workers (E : environment) (self : torch_obj) (command : dict)
    (owners : list worker_id) (pointer : option value) : M value :=
  match owners with
  | [] =>
      match pointer with
      | Some p => ret p
      | None => raise UnboundLocalError
      end
  | worker :: owners' =>
      let command := replace_in_command E command in
      response <- call_attr E self "send_command" [VDict command; VStr worker] ;;
      assembled <- except_KeyError
                     (if hasattr self "assemble_result_pointer" then
                        registration <- lift (getitem response "registration") ;;
                        torch_type <- lift (getitem response "torch_type") ;;
                        pointer <- lift (instance_call E self "assemble_result_pointer"
                                           [registration; torch_type]) ;;
                        ret (Some pointer)
                      else raise AttributeError)
                     (ret None) ;;
      match assembled with
      | Some pointer => method_workers E self command owners' (Some pointer)
      | None => ret response
      end
  end.

(** [overload_method(passer)], applied to the receiver and the arguments
    of a call. *)
Definition overload_method (E : environment)
    (passer : list value -> dict -> partial) (self : torch_obj)
    (args : list value) (kwargs : dict) : M value :=
  let part := passer (VObj self :: args) kwargs in
  self_is_pointer <- lift (get_reg is_pointer self) ;;
  if self_is_pointer then
    command <- lift (compile_command part true) ;;
    let tensorvars := get_tensorvars E command in
    let has_remote := check_remote tensorvars in
    let (multiple_owners, owners) := get_owners tensorvars in
    if has_remote && negb multiple_owners
    then method_workers E self command owners None
    else raise NotImplementedError
  else
    result <- call_original E part (VObj self :: args) kwargs ;;
    register_result E (fun o => hasattr o "owner") result.

(** ** Grid-specific method hooking *)

Fixpoint for_each {A : Type} (l : list A) (body : A -> M unit) : M unit :=
  match l with
  | [] => ret tt
  | a :: l' => _ <- body a ;; for_each l' body
  end.

(** [send_], as [hook_tensor_send] installs it on [tensor_type]. *)
Definition send_ (E : environment) (tensor_type : string) (self : torch_obj)
    (workers : destinations) : M torch_obj :=
  let workers := check_workers workers in
  self_id <- lift (get_reg id self) ;;
  self <- register_object E self (mk_reg_kwargs (Some self_id) (Some workers) None) ;;
  _ <- for_each workers (fun worker => send_obj self worker) ;;
  placeholder <- construct_empty E tensor_type ;;
  self_id <- lift (get_reg id self) ;;
  register_object E (old_set_ self placeholder)
    (mk_reg_kwargs (Some self_id) (Some workers) (Some true)).

(** The default [reduce] of [get_]: [lambda x: x[0]]. *)
Definition first_collected (collected : list torch_obj) : result torch_obj :=
  first collected.

(** The loop of [get_] over the owners. *)
Fixpoint collect (E : environment) (self : torch_obj) (owners : list worker_id)
    (collected : list torch_obj) : M (list torch_obj) :=
  match owners with
  | [] => ret collected
  | worker :: owners' =>
      x <- request_obj E self worker ;;
      x_id <- lift (get_reg id x) ;;
      x <- register_object E x (mk_reg_kwargs (Some x_id) None None) ;;
      collect E self owners' (collected ++ [x])
  end.

(** [get_], as [hook_tensor_get] installs it. *)
Definition get_ (E : environment) (self : torch_obj)
    (reduce : list torch_obj -> result torch_obj) : M torch_obj :=
  self_owners <- lift (get_reg owners self) ;;
  if mem (me E) self_owners then ret self
  else
    collected <- collect E self self_owners [] ;;
    reduced <- lift (reduce collected) ;;
    self_id <- lift (get_reg id self) ;;
    register_object E (old_set_ self reduced) (mk_reg_kwargs (Some self_id) None None).

(** ** Variable contents *)

(** A Variable with the two attributes the original [data] and [grad]
    properties read and write; [grad] may be [None]. *)
Record variable : Set := mk_variable {
  var : torch_obj;
  old_data : torch_obj;
  old_grad : option torch_obj
}.

Definition own_registration (self : variable) : result reg_kwargs :=
  let? self_id := get_reg id (var self) in
  let? self_owners := get_reg owners (var self) in
  let? self_is_pointer := get_reg is_pointer (var self) in
  Ok (mk_reg_kwargs (Some self_id) (Some self_owners) (Some self_is_pointer)).

(** The [data] property installed by [hook_var_contents]; it returns the
    tensor together with the Variable as the access leaves it. *)
Definition new_data (E : environment) (self : variable) : M (torch_obj * variable) :=
  if hasattr (var self) "data_registered" then ret (old_data self, self)
  else
    kw <- lift (own_registration self) ;;
    data <- register_object E (old_data self) kw ;;
    let self := mk_variable (var self) data (old_grad self) in
    let self := mk_variable (setattr_flag (var self) "data_registered")
                  (old_data self) (old_grad self) in
    ret (old_data self, self).

(** The [grad] property installed by [hook_var_contents]. *)
Definition new_grad (E : environment) (self : variable)
  : M (option torch_obj * variable) :=
  if hasattr (var self) "grad_registered" then ret (old_grad self, self)
  else
    match old_grad self with
    | Some g =>
        kw <- lift (own_registration self) ;;
        grad <- register_object E g kw ;;
        let self := mk_variable (var self) (old_data self) (Some grad) in
        let self := mk_variable (setattr_flag (var self) "grad_registered")
                      (old_data self) (old_grad self) in
        ret (old_grad self, self)
    | None => ret (old_grad self, self)
    end.

(** ** Overloading Torch classes *)

(** What an attribute of a class can be, as far as the hooking pass tells
    attributes apart: a method descriptor of the C layer, a Python
    function, the wrapper [overload_method(pass_method_args(lit))] around
    an earlier value [lit], or anything else (a property, a constant). *)
Inductive member : Set :=
| MethodDescriptor (qualname : string)
| PyFunction (qualname : string)
| Overloaded (lit : member)
| Other (label : string).

Definition namespace := list (string * member).

(** [lit.__qualname__]. Both wrappers are built under [functools.wraps],
    which copies [__qualname__] from the wrapped callable when it has one;
    otherwise the wrapper keeps the qualified name of its [def]. *)
Fixpoint qualname_of (lit : member) : option string :=
  match lit with
  | MethodDescriptor q => Some q
  | PyFunction q => Some q
  | Overloaded lit' =>
      match qualname_of lit' with
      | Some q => Some q
      | None => Some "HookService.overload_method.<locals>.command_workers"
      end
  | Other _ => None
  end.

(** [inspect.ismethoddescriptor(lit)] *)
Definition is_desc (lit : member) : bool :=
  match lit with
  | MethodDescriptor _ => true
  | _ => false
  end.

(** [type(lit) == FunctionType] *)
Definition is_func (lit : member) : bool :=
  match lit with
  | PyFunction _ => true
  | Overloaded _ => true
  | _ => false
  end.

(** [needle in hay] on strings *)
Fixpoint contains (needle hay : string) : bool :=
  String.prefix needle hay
  || match hay with
     | EmptyString => false
     | String _ hay' => contains needle hay'
     end.

Definition is_service_func (lit : member) : bool :=
  match qualname_of lit with
  | Some q => contains "HookService" q
  | None => false
  end.

(** [re.match('old*', attr) is not None]: the pattern is an [o], an [l]
    and any number of [d], anchored at the start of the name. *)
Definition is_old (attr : string) : bool :=
  match attr with
  | String "o" (String "l" _) => true
  | _ => false
  end.

(** [self.exclude] and [self.var_exclude] *)
Definition exclude : list string :=
  ["ndimension"; "nelement"; "size"; "numel"; "type"; "tolist"; "dim";
   "__iter__"; "select"].

Definition var_exclude : list string := ["__getattr__"].

(** [dir(object)] *)
Definition dir_object : list string :=
  ["__class__"; "__delattr__"; "__dir__"; "__doc__"; "__eq__"; "__format__";
   "__ge__"; "__getattribute__"; "__gt__"; "__hash__"; "__init__";
   "__init_subclass__"; "__le__"; "__lt__"; "__ne__"; "__new__";
   "__reduce__"; "__reduce_ex__"; "__repr__"; "__setattr__"; "__sizeof__";
   "__str__"; "__subclasshook__"].

(** The test guarding "where the overloading happens". *)
Definition hookable (excluded : list string) (attr : string) (lit : member) : bool :=
  negb (mem attr excluded)
  && ((is_desc lit || (is_func lit && negb (is_service_func lit)))
      && negb (mem attr dir_object) && negb (is_old attr)).

(** One iteration of the loop over [dir(cls)]. *)
Definition hook_attr (excluded : list string) (cls : namespace) (attr : string)
  : namespace :=
  match dict_find cls attr with
  | Some lit =>
      if hookable excluded attr lit
      then dict_set (dict_set cls ("old_" ++ attr) lit) attr (Overloaded lit)
      else cls
  | None => cls
  end.

(** The loop: [dir(cls)] is evaluated once, [getattr] reads the class as
    the earlier iterations left it. *)
Definition hook_attrs (excluded : list string) (cls : namespace) : namespace :=
  fold_left (hook_attr excluded) (keys cls) cls.

(** The names the loop overloads on a class. *)
Definition enumerate (excluded : list string) (cls : namespace) : list string :=
  map fst (filter (fun kv => hookable excluded (fst kv) (snd kv)) cls).

(** [getattr(cls, name)] *)
Definition class_getattr (cls : namespace) (name : string) : result member :=
  match dict_find cls name with
  | Some lit => Ok lit
  | None => Raise AttributeError
  end.

Definition service_function (hook name : string) : member :=
  PyFunction ("HookService." ++ hook ++ ".<locals>." ++ name).

Definition hook_tensor___init__ (cls : namespace) : namespace :=
  dict_set cls "__init__" (service_function "hook_tensor___init__" "new___init__").

Definition hook_tensor___new__ (cls : namespace) : result namespace :=
  let? old := class_getattr cls "__new__" in
  let cls := dict_set cls "old___new__" old in
  Ok (dict_set cls "__new__" (service_function "hook_tensor___new__" "new___new__")).

Definition hook_tensor___repr__ (cls : namespace) : result namespace :=
  let? old := class_getattr cls "__repr__" in
  let cls := dict_set cls "old__repr__" old in
  Ok (dict_set cls "__repr__" (service_function "hook_tensor___repr__" "new___repr__")).

Definition hook_tensor_send (cls : namespace) : namespace :=
  dict_set cls "send_" (service_function "hook_tensor_send" "send_").

Definition hook_tensor_get (cls : namespace) : namespace :=
  dict_set cls "get_" (service_function "hook_tensor_get" "get_").

(** [hook_tensor]; [hook_tensor_ser] stands for [tu.hook_tensor_ser],
    which is not in hook_service.py. *)
Definition hook_tensor (hook_tensor_ser : namespace -> namespace)
    (tensor_type : namespace) : result namespace :=
  let tensor_type := hook_tensor___init__ tensor_type in
  let? tensor_type := hook_tensor___new__ tensor_type in
  let? tensor_type := hook_tensor___repr__ tensor_type in
  let tensor_type := hook_attrs exclude tensor_type in
  let tensor_type := hook_tensor_send tensor_type in
  let tensor_type := hook_tensor_get tensor_type in
  Ok (hook_tensor_ser tensor_type).

Definition hook_var___new__ (cls : namespace) : result namespace :=
  let? old := class_getattr cls "__new__" in
  let cls := dict_set cls "old___new__" old in
  Ok (dict_set cls "__new__" (service_function "hook_var___new__" "new___new__")).

Definition hook_var_contents (cls : namespace) : result namespace :=
  let? data := class_getattr cls "data" in
  let cls := dict_set cls "old_data" data in
  let? grad := class_getattr cls "grad" in
  let cls := dict_set cls "old_grad" grad in
  let cls := dict_set cls "data" (Other "property new_data") in
  Ok (dict_set cls "grad" (Other "property new_grad")).

Definition hook_variable (cls : namespace) : result namespace :=
  let? cls := hook_var___new__ cls in
  let? cls := hook_var_contents cls in
  Ok (hook_attrs (exclude ++ var_exclude) cls).

(** ** Representation *)

(** [new___repr__], as [hook_tensor___repr__] installs it on the class
    [name] of the module [module]. [old__repr__] is the saved original
    and [format_owners] what [str.format] writes for the list of owners. *)
Definition new___repr__ (E : environment) (module name : string)
    (old__repr__ : torch_obj -> string)
    (format_owners : list worker_id -> string) (self : torch_obj)
  : result string :=
  let? self_owners := get_reg owners self in
  if mem (me E) self_owners then Ok (old__repr__ self)
  else
    let? self_owners := get_reg owners self in
    Ok ("[" ++ module ++ "." ++ name ++ " - Locations:"
        ++ format_owners self_owners ++ "]").

(** ** Overloading the torch module *)

(** What an attribute of the [torch] module can be, as far as
    [hook_torch_module] tells attributes apart: a builtin function, a
    Python function, the wrapper [overload_function(pass_func_args(lit))]
    around an earlier value [lit] (a Python function itself), or anything
    else (a class, a submodule, a constant). *)
Inductive torch_member : Set :=
| BuiltinFunction (name : string)
| ModuleFunction (name : string)
| OverloadedFunction (lit : torch_member)
| ModuleOther (label : string).

Definition torch_namespace := list (string * torch_member).

(** [self.torch_exclude] *)
Definition torch_exclude : list string := ["save"; "load"; "typename"].

(** [type(lit) in [FunctionType, BuiltinFunctionType]] *)
Definition is_function (lit : torch_member) : bool :=
  match lit with
  | ModuleOther _ => false
  | _ => true
  end.

(** One iteration of the loop of [hook_torch_module]; [getattr] raises
    when the module has no attribute of that name. *)
Definition hook_torch_attr (torch : torch_namespace) (attr : string)
  : result torch_namespace :=
  if mem attr torch_exclude then Ok torch
  else
    match dict_find torch attr with
    | Some lit =>
        if is_function lit
        then Ok (dict_set (dict_set torch ("old_" ++ attr) lit) attr
                   (OverloadedFunction lit))
        else Ok torch
    | None => Raise AttributeError
    end.

(** [hook_torch_module]: the loop over [self.torch_funcs], a list of names
    the service inherits from [BaseService]. The module is changed in
    place, so what the iterations before an exception did stays done: the
    module comes back in either case. *)
Fixpoint hook_torch_module (torch_funcs : list string) (torch : torch_namespace)
  : result unit * torch_namespace :=
  match torch_funcs with
  | [] => (Ok tt, torch)
  | attr :: torch_funcs' =>
      match hook_torch_attr torch attr with
      | Ok torch' => hook_torch_module torch_funcs' torch'
      | Raise e => (Raise e, torch)
      end
  end.

(** ** Outcomes, for stating what a call did *)

(** What [register_object(o, is_pointer=False)] makes of [o] when the next
    fresh id is [i]: a non-pointer under that id, owned by the local
    worker unless [o] already had owners. *)
Definition registered_local (E : environment) (i : Z) (o : torch_obj) : torch_obj :=
  registered_as o
    (mk_registration i
       (match reg o with
        | Some r => owners r
        | None => [me E]
        end)
       false).

(** What [register_object(x, id=x.id)] makes of a payload [x] that came
    with its registry attributes: a non-pointer under the id and with the
    owners it came with. *)
Definition received (x : torch_obj) : torch_obj :=
  match reg x with
  | Some rx => registered_as x (mk_registration (id rx) (owners rx) false)
  | None => x
  end.

(** A computation that touches nothing but the registry. *)
Definition only_registers {A : Type} (m : M A) : Prop :=
  forall st, exists evs,
    trace (snd (m st)) = (trace st ++ evs)%list /\ forallb is_registered evs = true.

(** ** A small deployment, for running the definitions *)

Module Example.

Definition alice : worker_id := "alice".
Definition bob : worker_id := "bob".
Definition carol : worker_id := "carol".

Definition command_name (command : dict) : string :=
  match dict_find command "command" with
  | Some (VStr s) => s
  | _ => ""
  end.

(** Worker [alice] with one tensor class and Variable tracked. Remote
    workers answer [sum] with a number, [is_cuda] with a dictionary of
    their own, [numpy] with a result of a type that is not tracked and
    everything else with the registration of a FloatTensor they keep; they
    hand out the payload [4, 5, 6]. *)
Definition E : environment :=
  {| me := alice;
     tensor_types := ["FloatTensor"];
     tensorvar_types := ["FloatTensor"; "Variable"];
     torch_call := fun _ _ _ => Ok (VObj (mk_torch_obj "FloatTensor" [7; 9] None []));
     instance_call := fun _ _ _ => Ok VNone;
     command_response := fun w command =>
       if String.eqb (command_name command) "sum" then VDict [("numeric", VInt 15)]
       else if String.eqb (command_name command) "is_cuda"
       then VDict [("answer", VBool false)]
       else
         VDict [("registration",
                 VDict [("id", VInt 77); ("owners", VList [VStr w]);
                        ("is_pointer", VBool true)]);
                ("torch_type",
                 VStr (if String.eqb (command_name command) "numpy"
                       then "ndarray" else "FloatTensor"))];
     obj_response := fun w i =>
       mk_torch_obj "FloatTensor" [4; 5; 6] (Some (mk_registration i [w] false)) [] |}.

Definition st0 : state := mk_state 100 [].

Definition tensor (i : Z) (ws : list worker_id) (p : bool) (data : list Z)
  : torch_obj :=
  mk_torch_obj "FloatTensor" data (Some (mk_registration i ws p)) [].

(** A local tensor, a pointer to a tensor at [bob], one to a tensor at
    [carol], and a tensor fetched back from [bob] (no longer a pointer,
    owners carried over). *)
Definition x_local : torch_obj := tensor 5 [alice] false [1; 2; 3].
Definition x_bob : torch_obj := tensor 6 [bob] true [].
Definition x_carol : torch_obj := tensor 8 [carol] true [].
Definition x_back : torch_obj := tensor 9 [bob] false [4; 5; 6].

Definition torch_add : function := mk_function "add" "add".
Definition torch_sum : function := mk_function "sum" "sum".
Definition torch_numpy : function := mk_function "numpy" "numpy".
Definition tensor_add : function := mk_function "add" "_TensorBase.add".

Definition g0 : torch_obj := mk_torch_obj "FloatTensor" [0; 0] None [].

Definition v0 : variable :=
  mk_variable (mk_torch_obj "Variable" [] (Some (mk_registration 11 [alice] false)) [])
              (mk_torch_obj "FloatTensor" [1; 2] None [])
              (Some g0).

(** A tensor class before hooking. *)
Definition FloatTensor : namespace :=
  [("__init__", MethodDescriptor "object.__init__");
   ("__new__", MethodDescriptor "FloatTensorBase.__new__");
   ("__repr__", PyFunction "_TensorBase.__repr__");
   ("add", MethodDescriptor "FloatTensorBase.add");
   ("size", MethodDescriptor "FloatTensorBase.size");
   ("set_", MethodDescriptor "FloatTensorBase.set_")].

Definition install_ser (cls : namespace) : namespace :=
  dict_set cls "ser" (PyFunction "hook_tensor_ser.<locals>.ser").

(** A tensor at [bob] with the data the workers hand out, before it is
    sent, and a pointer that names no owner. *)
Definition x_456 : torch_obj := tensor 5 [alice] false [4; 5; 6].
Definition x_nowhere : torch_obj := tensor 10 [] true [].

(** The [torch] module before hooking, and the names to go through. *)
Definition torch : torch_namespace :=
  [("add", BuiltinFunction "add");
   ("save", ModuleFunction "save");
   ("FloatTensor", ModuleOther "class FloatTensor");
   ("is_tensor", ModuleFunction "is_tensor")].

Definition torch_funcs : list string := ["add"; "save"; "FloatTensor"; "is_tensor"].

(** The Variable class before hooking. *)
Definition Variable_cls : namespace :=
  [("__new__", MethodDescriptor "_VariableBase.__new__");
   ("__getattr__", PyFunction "Variable.__getattr__");
   ("data", Other "getset data");
   ("grad", Other "getset grad");
   ("backward", PyFunction "Variable.backward")].

(** The same worker with original callables that return no tensor: [dot]
    gives a number, every other one raises [TypeError]. *)
Definition E_plain : environment :=
  mk_environment alice ["FloatTensor"] ["FloatTensor"; "Variable"]
    (fun f _ _ => if String.eqb (__name__ f) "dot" then Ok (VInt 32)
                  else Raise TypeError)
    (instance_call E) (command_response E) (obj_response E).

Definition torch_dot : function := mk_function "dot" "dot".

(** The same worker facing owners whose answer carries registration
    metadata but names no result type. *)
Definition untyped_answer : value :=
  VDict [("registration",
          VDict [("id", VInt 77); ("owners", VList [VStr "bob"]);
                 ("is_pointer", VBool true)])].

Definition E_untyped : environment :=
  mk_environment alice ["FloatTensor"] ["FloatTensor"; "Variable"]
    (torch_call E) (instance_call E) (fun _ _ => untyped_answer) (obj_response E).

End Example.

(** * Properties *)

(** ** Dictionaries *)

Lemma dict_find_app_skip {A : Type} (pre d : list (string * A)) (k : string) :
  ~ In k (keys pre) -> dict_find (pre ++ d)%list k = dict_find d k.
Proof.
  induction pre as [|[k' v'] pre IH]; simpl; intros Hk; [reflexivity|].
  destruct (String.eqb_spec k k') as [->|_].
  - exfalso. apply Hk. now left.
  - apply IH. intros Hin. apply Hk. now right.
Qed.

Lemma dict_find_set_same {A : Type} (d : list (string * A)) (k : string) (v : A) :
  dict_find (dict_set d k v) k = Some v.
Proof.
  induction d as [|[k' v'] d IH]; simpl.
  - now rewrite String.eqb_refl.
  - destruct (String.eqb_spec k k') as [->|Hne]; simpl.
    + now rewrite String.eqb_refl.
    + destruct (String.eqb_spec k k'); [contradiction|exact IH].
Qed.

Lemma dict_find_set_other {A : Type} (d : list (string * A)) (k k' : string) (v : A) :
  k' <> k -> dict_find (dict_set d k v) k' = dict_find d k'.
Proof.
  intros Hne. induction d as [|[k0 v0] d IH]; simpl.
  - destruct (String.eqb_spec k' k); [contradiction|reflexivity].
  - destruct (String.eqb_spec k k0) as [->|Hk]; simpl.
    + destruct (String.eqb_spec k' k0); [contradiction|reflexivity].
    + destruct (String.eqb_spec k' k0); [reflexivity|exact IH].
Qed.

Lemma mem_In (s : string) (l : list string) : mem s l = true <-> In s l.
Proof.
  unfold mem. rewrite existsb_exists. split.
  - intros [x [Hx Heq]]. apply String.eqb_eq in Heq. now subst.
  - intros H. exists s. split; [assumption|apply String.eqb_refl].
Qed.

Lemma mem_false (s : string) (l : list string) : mem s l = false <-> ~ In s l.
Proof.
  rewrite <- mem_In. destruct (mem s l); split; congruence.
Qed.

(** ** Command compilation *)

Lemma kwarg_type_names_suffix (pre l : dict) :
  NoDup (keys (pre ++ l)%list) ->
  rmap (fun x => let? v := dict_get (pre ++ l)%list x in Ok (VStr (type_name v)))
       (keys l)
  = Ok (map (fun kv => tag (snd kv)) l).
Proof.
  revert pre. induction l as [|[k v] l IH]; intros pre Hnd; [reflexivity|].
  simpl. unfold dict_get at 1.
  rewrite dict_find_app_skip.
  - simpl. rewrite String.eqb_refl. simpl.
    replace (pre ++ (k, v) :: l)%list with ((pre ++ [(k, v)]) ++ l)%list in *
      by (rewrite <- app_assoc; reflexivity).
    rewrite (IH _ Hnd). reflexivity.
  - unfold keys in *. rewrite map_app in Hnd. simpl in Hnd.
    apply NoDup_remove_2 in Hnd. intros Hin. apply Hnd.
    apply in_or_app. now left.
Qed.

Lemma kwarg_type_names_nodup (kwargs : dict) :
  NoDup (keys kwargs) ->
  kwarg_type_names kwargs = Ok (map (fun kv => tag (snd kv)) kwargs).
Proof.
  intros Hnd. exact (kwarg_type_names_suffix [] kwargs Hnd).
Qed.

Lemma dict_find_key {A : Type} (d : list (string * A)) (k : string) :
  In k (keys d) -> exists v, dict_find d k = Some v.
Proof.
  induction d as [|[k' v'] d IH]; simpl; [tauto|].
  intros [->|Hin].
  - rewrite String.eqb_refl. eauto.
  - destruct (String.eqb k k'); eauto.
Qed.

Lemma kwarg_type_names_total (kwargs : dict) :
  exists tags, kwarg_type_names kwargs = Ok tags.
Proof.
  unfold kwarg_type_names.
  assert (H : forall ks, incl ks (keys kwargs) ->
            exists tags,
              rmap (fun x => let? v := dict_get kwargs x in Ok (VStr (type_name v))) ks
              = Ok tags).
  { induction ks as [|k ks IH]; intros Hincl; simpl; [eauto|].
    destruct (dict_find_key kwargs k) as [v Hv]; [apply Hincl; now left|].
    unfold dict_get. rewrite Hv. simpl.
    destruct IH as [tags Htags].
    - intros x Hx. apply Hincl. now right.
    - unfold dict_get in Htags. rewrite Htags. simpl. eauto. }
  apply H. apply incl_refl.
Qed.

(** C3. [compile_command] is a function of the captured call and
    [has_self] alone: with [has_self] the first positional argument becomes
    the [self] entry and the remaining ones stay, in order, under [args];
    two captured calls with the same function, arguments and keywords
    compile to equal commands. *)
Theorem compile_command_self_first_and_deterministic :
  (forall f a rest kwargs,
      exists tags,
        kwarg_type_names kwargs = Ok tags /\
        compile_command (mk_partial f (a :: rest) kwargs) true
        = Ok [("has_self", VBool true); ("self", a);
              ("command", VStr (__name__ f)); ("args", VTuple rest);
              ("kwargs", VDict kwargs); ("arg_types", VList (map tag rest));
              ("kwarg_types", VList tags)])
  /\ (forall p q has_self,
         func p = func q -> args p = args q -> keywords p = keywords q ->
         compile_command p has_self = compile_command q has_self).
Proof.
  split.
  - intros f a rest kwargs.
    destruct (kwarg_type_names_total kwargs) as [tags Htags].
    exists tags. split; [assumption|].
    unfold compile_command. simpl. rewrite Htags. reflexivity.
  - intros [f1 a1 k1] [f2 a2 k2] has_self; simpl.
    intros -> -> ->. reflexivity.
Qed.

Lemma compile_command_self_first_and_deterministic_witness :
  compile_command (mk_partial Example.tensor_add [VObj Example.x_bob; VInt 1] []) true
  = compile_command (mk_partial Example.tensor_add [VObj Example.x_bob; VInt 1] []) true.
Proof.
  apply (proj2 compile_command_self_first_and_deterministic); reflexivity.
Defined.

Lemma compile_command_entries (p : partial) (has_self : bool) (command : dict) :
  compile_command p has_self = Ok command ->
  exists rest tags,
    rest = (if has_self then tl (args p) else args p) /\
    kwarg_type_names (keywords p) = Ok tags /\
    dict_get command "args" = Ok (VTuple rest) /\
    dict_get command "arg_types" = Ok (VList (map tag rest)) /\
    dict_get command "kwargs" = Ok (VDict (keywords p)) /\
    dict_get command "kwarg_types" = Ok (VList tags).
Proof.
  destruct p as [f a kw]. unfold compile_command. simpl.
  destruct (kwarg_type_names_total kw) as [tags Htags].
  destruct has_self.
  - destruct a as [|a0 rest]; simpl; [discriminate|].
    rewrite Htags. simpl. intros [= <-].
    exists rest, tags. repeat split; reflexivity || assumption.
  - simpl. rewrite Htags. simpl. intros [= <-].
    exists a, tags. repeat split; reflexivity || assumption.
Qed.

(** C4, as stated, fails: for the call [add(1, dim=0)] the command's
    [kwarg_types] entry is the list [["int"]], not a mapping from the
    keyword [dim] to its tag. *)
Lemma kwarg_types_is_not_a_mapping :
  let p := mk_partial Example.torch_add [VInt 1] [("dim", VInt 0)] in
  exists command,
    compile_command p false = Ok command /\
    dict_get command "kwarg_types" = Ok (VList [VStr "int"]) /\
    dict_get command "kwarg_types" <> Ok (kwarg_types_by_name (keywords p)).
Proof.
  simpl. eexists. split; [reflexivity|]. split; [reflexivity|].
  simpl. discriminate.
Qed.

(** C4, amended. Every command produced by [compile_command] carries under
    [arg_types] the sequence of type tags of its [args] entry, one per
    entry and in order, and under [kwarg_types] a sequence as well: the
    tags of the keyword arguments in the iteration order of [kwargs],
    without their names. (The keywords are a Python dictionary: each key
    occurs once.) *)
Theorem compile_command_type_tags (p : partial) (has_self : bool) (command : dict) :
  NoDup (keys (keywords p)) ->
  compile_command p has_self = Ok command ->
  exists rest,
    dict_get command "args" = Ok (VTuple rest) /\
    dict_get command "arg_types" = Ok (VList (map tag rest)) /\
    dict_get command "kwargs" = Ok (VDict (keywords p)) /\
    dict_get command "kwarg_types"
    = Ok (VList (map (fun kv => tag (snd kv)) (keywords p))).
Proof.
  intros Hnd Hc.
  destruct (compile_command_entries p has_self command Hc)
    as (rest & tags & _ & Htags & Hargs & Hat & Hkw & Hkt).
  rewrite (kwarg_type_names_nodup _ Hnd) in Htags. injection Htags as <-.
  exists rest. repeat split; assumption.
Qed.

Lemma compile_command_type_tags_witness :
  exists rest,
    dict_get [("has_self", VBool false); ("command", VStr "add");
              ("args", VTuple [VInt 1]); ("kwargs", VDict [("dim", VInt 0)]);
              ("arg_types", VList [VStr "int"]); ("kwarg_types", VList [VStr "int"])]
             "args" = Ok (VTuple rest) /\
    dict_get [("has_self", VBool false); ("command", VStr "add");
              ("args", VTuple [VInt 1]); ("kwargs", VDict [("dim", VInt 0)]);
              ("arg_types", VList [VStr "int"]); ("kwarg_types", VList [VStr "int"])]
             "arg_types" = Ok (VList (map tag rest)) /\
    dict_get [("has_self", VBool false); ("command", VStr "add");
              ("args", VTuple [VInt 1]); ("kwargs", VDict [("dim", VInt 0)]);
              ("arg_types", VList [VStr "int"]); ("kwarg_types", VList [VStr "int"])]
             "kwargs" = Ok (VDict [("dim", VInt 0)]) /\
    dict_get [("has_self", VBool false); ("command", VStr "add");
              ("args", VTuple [VInt 1]); ("kwargs", VDict [("dim", VInt 0)]);
              ("arg_types", VList [VStr "int"]); ("kwarg_types", VList [VStr "int"])]
             "kwarg_types" = Ok (VList [VStr "int"]).
Proof.
  apply (compile_command_type_tags
           (mk_partial Example.torch_add [VInt 1] [("dim", VInt 0)]) false).
  - simpl. repeat constructor. simpl. tauto.
  - reflexivity.
Defined.

(** ** Running the service's computations *)

Ltac run :=
  unfold bind, ret, raise, lift, log, fresh_id, except_KeyError in *;
  simpl in *.

(** One step of a computation whose head has been rewritten to a value. *)
Ltac step :=
  unfold bind, ret, raise, lift, log, fresh_id, except_KeyError;
  cbv beta iota zeta.

Lemma get_owners_multiple (tensorvars : list torch_obj) :
  (1 < List.length (nodup string_dec (flat_map owners_of tensorvars)))%nat ->
  get_owners tensorvars
  = (true, nodup string_dec (flat_map owners_of tensorvars)).
Proof.
  intros H. unfold get_owners. apply Nat.ltb_lt in H. now rewrite H.
Qed.

(** ** Location resolution and dispatch *)

(** Where the owners are looked at, more than one of them is refused.
    The wrapper of free functions raises [NotImplementedError] whenever
    the tensor-like operands of the call include a remote one and the
    union of their owners has more than one distinct worker, and so does
    the wrapper of methods when the receiver is a pointer, the one case in
    which it compiles a command and resolves locations at all. In both
    cases nothing else has been done: no message was sent, nothing was
    executed or registered. *)
Theorem multiple_owners_not_implemented (E : environment) :
  (forall f args kwargs command st,
      compile_command (pass_func_args f args kwargs) false = Ok command ->
      check_remote (get_tensorvars E command) = true ->
      (1 < List.length
             (nodup string_dec (flat_map owners_of (get_tensorvars E command))))%nat ->
      overload_function E (pass_func_args f) args kwargs st
      = (Raise NotImplementedError, st))
  /\ (forall method self args kwargs command st,
         get_reg is_pointer self = Ok true ->
         compile_command (pass_method_args method (VObj self :: args) kwargs) true
         = Ok command ->
         check_remote (get_tensorvars E command) = true ->
         (1 < List.length
                (nodup string_dec (flat_map owners_of (get_tensorvars E command))))%nat ->
         overload_method E (pass_method_args method) self args kwargs st
         = (Raise NotImplementedError, st)).
Proof.
  split.
  - intros f args kwargs command st Hc Hremote Hmany.
    unfold overload_function. rewrite Hc. step.
    rewrite Hremote, (get_owners_multiple _ Hmany). reflexivity.
  - intros method self args kwargs command st Hp Hc Hremote Hmany.
    unfold overload_method. rewrite Hp. step. rewrite Hc. step.
    rewrite Hremote, (get_owners_multiple _ Hmany). reflexivity.
Qed.

Lemma multiple_owners_not_implemented_witness :
  overload_function Example.E (pass_func_args Example.torch_add)
    [VObj Example.x_bob; VObj Example.x_carol] [] Example.st0
  = (Raise NotImplementedError, Example.st0)
  /\ overload_method Example.E (pass_method_args Example.tensor_add)
       Example.x_bob [VObj Example.x_carol] [] Example.st0
     = (Raise NotImplementedError, Example.st0).
Proof.
  split.
  - eapply (proj1 (multiple_owners_not_implemented Example.E)).
    + reflexivity.
    + reflexivity.
    + vm_compute. lia.
  - eapply (proj2 (multiple_owners_not_implemented Example.E)).
    + reflexivity.
    + reflexivity.
    + reflexivity.
    + vm_compute. lia.
Defined.

(** The owners of the remote operands alone are among the owners of all
    tensor-like operands: if the former span more than one worker, so do
    the latter. *)
Lemma remote_owners_span (tensorvars : list torch_obj) :
  (1 < List.length
         (nodup string_dec (flat_map owners_of (filter remote tensorvars))))%nat ->
  (1 < List.length (nodup string_dec (flat_map owners_of tensorvars)))%nat.
Proof.
  intros H. eapply Nat.lt_le_trans; [exact H|].
  apply NoDup_incl_length; [apply NoDup_nodup|].
  intros w Hw. apply nodup_In. apply nodup_In in Hw.
  apply in_flat_map in Hw as [o [Ho Hw]]. apply in_flat_map.
  exists o. split; [|assumption]. now apply filter_In in Ho.
Qed.

(** *** What a computation leaves in the trace *)

Lemma only_registers_ret {A : Type} (a : A) : only_registers (ret a).
Proof. intros st. exists []. simpl. now rewrite app_nil_r. Qed.

Lemma only_registers_raise {A : Type} (e : exn) : only_registers (@raise A e).
Proof. intros st. exists []. simpl. now rewrite app_nil_r. Qed.

Lemma only_registers_lift {A : Type} (r : result A) : only_registers (lift r).
Proof. intros st. exists []. simpl. now rewrite app_nil_r. Qed.

Lemma only_registers_bind {A B : Type} (m : M A) (k : A -> M B) :
  only_registers m -> (forall a, only_registers (k a)) -> only_registers (bind m k).
Proof.
  intros Hm Hk st. unfold bind.
  destruct (Hm st) as [evs [Ht Hevs]].
  destruct (m st) as [[a|e] st1]; simpl in *.
  - destruct (Hk a st1) as [evs' [Ht' Hevs']].
    exists (evs ++ evs')%list. rewrite Ht', Ht, app_assoc. split; [reflexivity|].
    rewrite forallb_app, Hevs, Hevs'. reflexivity.
  - exists evs. split; assumption.
Qed.

Lemma only_registers_except {A : Type} (body handler : M A) :
  only_registers body -> only_registers handler ->
  only_registers (except_KeyError body handler).
Proof.
  intros Hb Hh st. unfold except_KeyError.
  destruct (Hb st) as [evs [Ht Hevs]].
  destruct (body st) as [[a|e] st1]; simpl in *.
  - exists evs. split; assumption.
  - assert (Hplain : exists evs0, trace st1 = (trace st ++ evs0)%list
                                  /\ forallb is_registered evs0 = true) by eauto.
    destruct e; simpl; try exact Hplain.
    destruct (Hh st1) as [evs' [Ht' Hevs']].
    exists (evs ++ evs')%list. rewrite Ht', Ht, app_assoc. split; [reflexivity|].
    rewrite forallb_app, Hevs, Hevs'. reflexivity.
Qed.

Lemma only_registers_register_object (E : environment) (obj : torch_obj)
    (kw : reg_kwargs) :
  only_registers (register_object E obj kw).
Proof.
  intros st. unfold register_object.
  destruct (kw_id kw); run; eexists [_]; split; reflexivity.
Qed.

Lemma only_registers_construct_empty (E : environment) (cls : string) :
  only_registers (construct_empty E cls).
Proof.
  unfold construct_empty, new___new__, new___init__.
  apply only_registers_bind; [apply only_registers_register_object|].
  intros o. destruct (mem cls (tensor_types E)).
  - apply only_registers_register_object.
  - apply only_registers_ret.
Qed.

Lemma only_registers_assemble_result_pointer (E : environment)
    (registration torch_type : value) :
  only_registers (assemble_result_pointer E registration torch_type).
Proof.
  unfold assemble_result_pointer.
  destruct (types_guard E torch_type) as [cls|e].
  - apply only_registers_bind; [apply only_registers_construct_empty|].
    intros o. apply only_registers_bind; [apply only_registers_lift|].
    intros kw. apply only_registers_register_object.
  - destruct e; apply only_registers_raise.
Qed.

Lemma messages_app (n : Z) (t evs : list event) :
  messages (mk_state n (t ++ evs)) = (filter is_message t ++ filter is_message evs)%list.
Proof. unfold messages. simpl. apply filter_app. Qed.

Lemma registered_is_no_message (evs : list event) :
  forallb is_registered evs = true -> filter is_message evs = [].
Proof.
  induction evs as [|e evs IH]; simpl; [reflexivity|].
  destruct e; simpl; try discriminate. exact IH.
Qed.

Lemma only_registers_function_answer (E : environment) (response : value) :
  only_registers
    (assembled <- except_KeyError
                    (registration <- lift (getitem response "registration") ;;
                     torch_type <- lift (getitem response "torch_type") ;;
                     pointer <- assemble_result_pointer E registration torch_type ;;
                     ret (Some pointer))
                    (ret None) ;;
     match assembled with
     | Some pointer => ret (VObj pointer)
     | None => ret response
     end).
Proof.
  apply only_registers_bind.
  - apply only_registers_except; [|apply only_registers_ret].
    apply only_registers_bind; [apply only_registers_lift|]. intros r.
    apply only_registers_bind; [apply only_registers_lift|]. intros t.
    apply only_registers_bind; [apply only_registers_assemble_result_pointer|].
    intros p. apply only_registers_ret.
  - intros [p|]; apply only_registers_ret.
Qed.

(** A call whose local branch ran: the original callable was executed, no
    message left the worker, and a result of a tracked type (that [skip]
    does not hold for) came back registered under a fresh id as a
    non-pointer. *)
Lemma local_branch (E : environment) (skip : torch_obj -> bool) (part : partial)
    (args : list value) (kwargs : dict) (result : value) (st : state) :
  torch_call E (func part) args kwargs = Ok result ->
  exists out st',
    (result' <- call_original E part args kwargs ;;
     register_result E skip result') st = (Ok out, st')
    /\ messages st' = messages st
    /\ In (Executed (func part) args kwargs) (trace st')
    /\ (forall o, result = VObj o -> tracked E result = true -> skip o = false ->
        out = VObj (registered_local E (next_id st) o)
        /\ In (Registered (registered_local E (next_id st) o)) (trace st')).
Proof.
  intros Hcall. unfold call_original, register_result. step. rewrite Hcall.
  destruct result as [| | | | | | |o];
    try (eexists _, _; split; [reflexivity|]; split;
         [destruct st; unfold messages; simpl; rewrite filter_app, app_nil_r; reflexivity|];
         split; [simpl; apply in_or_app; right; now left|];
         intros o' Ho; discriminate).
  destruct (tracked E (VObj o) && negb (skip o)) eqn:Hreg.
  - unfold register_object. step. simpl.
    eexists _, _. split; [reflexivity|]. split.
    { destruct st; unfold messages; simpl. rewrite !filter_app. simpl.
      now rewrite !app_nil_r. }
    split.
    { simpl. apply in_or_app. left. apply in_or_app. right. now left. }
    intros o' [= <-] _ _. split; [reflexivity|].
    simpl. apply in_or_app. right. now left.
  - eexists _, _. split; [reflexivity|]. split.
    { destruct st; unfold messages; simpl. now rewrite filter_app, app_nil_r. }
    split; [simpl; apply in_or_app; right; now left|].
    intros o' [= <-] Ht Hs. rewrite Ht, Hs in Hreg. discriminate.
Qed.

Lemma bind_run {A B : Type} (m : M A) (k : A -> M B) (st : state) :
  bind m k st
  = match m st with
    | (Ok a, st') => k a st'
    | (Raise e, st') => (Raise e, st')
    end.
Proof. reflexivity. Qed.

Lemma send_command_run (E : environment) (command : dict) (w : worker_id)
    (st : state) :
  send_command E command w st
  = (process_response (command_response E w command),
     mk_state (next_id st) (trace st ++ [SentCommand w command])).
Proof. reflexivity. Qed.

Lemma function_workers_single (E : environment) (command : dict) (w : worker_id)
    (st : state) :
  exists r st' evs,
    function_workers E command [w] None st = (r, st')
    /\ trace st' = (trace st ++ SentCommand w command :: evs)%list
    /\ forallb is_registered evs = true.
Proof.
  cbn [function_workers]. rewrite bind_run, send_command_run.
  destruct (process_response (command_response E w command)) as [response|e].
  - match goal with
    | |- context [bind ?m ?k ?s] =>
        assert (H : exists evs,
                   trace (snd (bind m k s)) = (trace s ++ evs)%list
                   /\ forallb is_registered evs = true)
          by exact (only_registers_function_answer E response s);
        destruct (bind m k s) as [r st']
    end.
    destruct H as [evs [Ht Hevs]]. simpl in Ht.
    exists r, st', evs. split; [reflexivity|]. split; [|exact Hevs].
    rewrite Ht, <- app_assoc. reflexivity.
  - eexists _, _, []. split; [reflexivity|]. split; reflexivity.
Qed.

(** The two branches of dispatch, as the code takes them. For a free
    function: if no tensor-like operand is remote, the call is executed
    locally, no message leaves the worker and a result of a tracked type
    comes back registered under a fresh id as a non-pointer; if some
    operand is remote and the owners are a single worker, the command,
    with its remote operands replaced by references, is sent to that
    worker, and nothing else is sent or executed. For a method the test is
    made on the receiver only: if the receiver is not a pointer the call
    is executed locally and no message leaves the worker, and a result of
    a tracked type that has no [owner] attribute comes back registered
    under a fresh id as a non-pointer. *)
Theorem dispatch_local_or_forwarded (E : environment) :
  (forall f args kwargs command result st,
      compile_command (pass_func_args f args kwargs) false = Ok command ->
      check_remote (get_tensorvars E command) = false ->
      torch_call E f args kwargs = Ok result ->
      exists out st',
        overload_function E (pass_func_args f) args kwargs st = (Ok out, st')
        /\ messages st' = messages st
        /\ In (Executed f args kwargs) (trace st')
        /\ (forall o, result = VObj o -> tracked E result = true ->
            out = VObj (registered_local E (next_id st) o)
            /\ In (Registered (registered_local E (next_id st) o)) (trace st')))
  /\ (forall f args kwargs command w st,
         compile_command (pass_func_args f args kwargs) false = Ok command ->
         check_remote (get_tensorvars E command) = true ->
         get_owners (get_tensorvars E command) = (false, [w]) ->
         exists r st' evs,
           overload_function E (pass_func_args f) args kwargs st = (r, st')
           /\ trace st'
              = (trace st ++ SentCommand w (replace_in_command E command) :: evs)%list
           /\ forallb is_registered evs = true)
  /\ (forall method self args kwargs result st,
         get_reg is_pointer self = Ok false ->
         torch_call E method (VObj self :: args) kwargs = Ok result ->
         exists out st',
           overload_method E (pass_method_args method) self args kwargs st
           = (Ok out, st')
           /\ messages st' = messages st
           /\ In (Executed method (VObj self :: args) kwargs) (trace st')
           /\ (forall o, result = VObj o -> tracked E result = true ->
               hasattr o "owner" = false ->
               out = VObj (registered_local E (next_id st) o)
               /\ In (Registered (registered_local E (next_id st) o)) (trace st'))).
Proof.
  split; [|split].
  - intros f args kwargs command result st Hc Hlocal Hcall.
    destruct (local_branch E (fun _ => false) (pass_func_args f args kwargs)
                args kwargs result st Hcall) as (out & st' & Hrun & Hm & Hex & Hreg).
    exists out, st'. unfold overload_function. rewrite Hc. step. rewrite Hlocal.
    split; [exact Hrun|]. split; [exact Hm|]. split; [exact Hex|].
    intros o Ho Ht. apply Hreg; auto.
  - intros f args kwargs command w st Hc Hremote Howners.
    unfold overload_function. rewrite Hc. step. rewrite Hremote, Howners.
    apply function_workers_single.
  - intros method self args kwargs result st Hp Hcall.
    destruct (local_branch E (fun o => hasattr o "owner")
                (pass_method_args method (VObj self :: args) kwargs)
                (VObj self :: args) kwargs result st Hcall)
      as (out & st' & Hrun & Hm & Hex & Hreg).
    exists out, st'. unfold overload_method. rewrite Hp. step.
    split; [exact Hrun|]. split; [exact Hm|]. split; [exact Hex|]. exact Hreg.
Qed.

Lemma dispatch_local_or_forwarded_witness :
  (exists out st',
      overload_function Example.E (pass_func_args Example.torch_add)
        [VObj Example.x_local; VObj Example.x_local] [] Example.st0 = (Ok out, st')
      /\ messages st' = messages Example.st0
      /\ In (Executed Example.torch_add [VObj Example.x_local; VObj Example.x_local] [])
            (trace st')
      /\ (forall o,
          VObj (mk_torch_obj "FloatTensor" [7; 9] None []) = VObj o ->
          tracked Example.E (VObj (mk_torch_obj "FloatTensor" [7; 9] None [])) = true ->
          out = VObj (registered_local Example.E (next_id Example.st0) o)
          /\ In (Registered (registered_local Example.E (next_id Example.st0) o))
                (trace st')))
  /\ (exists r st' evs,
         overload_function Example.E (pass_func_args Example.torch_add)
           [VObj Example.x_bob; VObj Example.x_bob] [] Example.st0 = (r, st')
         /\ trace st'
            = (trace Example.st0
               ++ SentCommand Example.bob
                    (replace_in_command Example.E
                       [("has_self", VBool false); ("command", VStr "add");
                        ("args", VTuple [VObj Example.x_bob; VObj Example.x_bob]);
                        ("kwargs", VDict []);
                        ("arg_types", VList [VStr "FloatTensor"; VStr "FloatTensor"]);
                        ("kwarg_types", VList [])])
                  :: evs)%list
         /\ forallb is_registered evs = true)
  /\ (exists out st',
         overload_method Example.E (pass_method_args Example.tensor_add)
           Example.x_local [VObj Example.x_bob] [] Example.st0 = (Ok out, st')
         /\ messages st' = messages Example.st0
         /\ In (Executed Example.tensor_add [VObj Example.x_local; VObj Example.x_bob] [])
               (trace st')
         /\ (forall o,
             VObj (mk_torch_obj "FloatTensor" [7; 9] None []) = VObj o ->
             tracked Example.E (VObj (mk_torch_obj "FloatTensor" [7; 9] None [])) = true ->
             hasattr o "owner" = false ->
             out = VObj (registered_local Example.E (next_id Example.st0) o)
             /\ In (Registered (registered_local Example.E (next_id Example.st0) o))
                   (trace st'))).
Proof.
  split; [|split].
  - eapply (proj1 (dispatch_local_or_forwarded Example.E)); reflexivity.
  - eapply (proj1 (proj2 (dispatch_local_or_forwarded Example.E))); reflexivity.
  - eapply (proj2 (proj2 (dispatch_local_or_forwarded Example.E))); reflexivity.
Defined.

(** What the wrapper of methods does on a pointer receiver whose owners
    are a single worker or more, none in conflict: the command is never
    sent. Inside the wrapper [self] is the Torch instance, and unless that
    instance happens to have a [send_command] attribute of its own the
    lookup [self.send_command] raises [AttributeError]. *)
Lemma overload_method_pointer_raises (E : environment) (method : function)
    (self : torch_obj) (args : list value) (kwargs command : dict)
    (w : worker_id) (ws : list worker_id) (st : state) :
  get_reg is_pointer self = Ok true ->
  compile_command (pass_method_args method (VObj self :: args) kwargs) true
  = Ok command ->
  check_remote (get_tensorvars E command) = true ->
  get_owners (get_tensorvars E command) = (false, w :: ws) ->
  hasattr self "send_command" = false ->
  overload_method E (pass_method_args method) self args kwargs st
  = (Raise AttributeError, st).
Proof.
  intros Hp Hc Hremote Howners Hattr.
  unfold overload_method. rewrite Hp. step. rewrite Hc. step.
  rewrite Hremote, Howners. cbn [negb andb method_workers].
  rewrite bind_run. unfold call_attr. rewrite Hattr. reflexivity.
Qed.

(** ** The pointer operations *)

Lemma register_object_with_id (E : environment) (o : torch_obj) (i : Z)
    (ws : option (list worker_id)) (p : option bool) (st : state) :
  register_object E o (mk_reg_kwargs (Some i) ws p) st
  = (Ok (registered_as o
           (mk_registration i
              (match ws with
               | Some ws => ws
               | None => match reg o with
                         | Some r => owners r
                         | None => [me E]
                         end
               end)
              (match p with
               | Some b => b
               | None => false
               end))),
     mk_state (next_id st)
       (trace st
        ++ [Registered
              (registered_as o
                 (mk_registration i
                    (match ws with
                     | Some ws => ws
                     | None => match reg o with
                               | Some r => owners r
                               | None => [me E]
                               end
                     end)
                    (match p with
                     | Some b => b
                     | None => false
                     end)))])).
Proof. reflexivity. Qed.

Lemma for_each_send_obj (o : torch_obj) (ws : list worker_id) (st : state) :
  for_each ws (fun worker => send_obj o worker) st
  = (Ok tt, mk_state (next_id st) (trace st ++ map (fun w => Published w o) ws)).
Proof.
  revert st. induction ws as [|w ws IH]; intros st; simpl.
  - unfold ret. rewrite app_nil_r. now destruct st.
  - rewrite bind_run. unfold send_obj, log. rewrite IH. simpl.
    rewrite <- app_assoc. reflexivity.
Qed.

Lemma published_are_messages (o : torch_obj) (ws : list worker_id) :
  filter is_message (map (fun w => Published w o) ws)
  = map (fun w => Published w o) ws.
Proof.
  induction ws as [|w ws IH]; simpl; [reflexivity|]. now rewrite IH.
Qed.

Lemma construct_empty_run (E : environment) (cls : string) (st : state) :
  exists o st' evs,
    construct_empty E cls st = (Ok o, st')
    /\ torch_type o = cls /\ storage o = [] /\ attrs o = []
    /\ trace st' = (trace st ++ evs)%list
    /\ forallb is_registered evs = true.
Proof.
  unfold construct_empty, new___new__, new___init__, register_object.
  destruct (mem cls (tensor_types E)); step; simpl;
    eexists _, _, _; (split; [reflexivity|]); repeat (split; [reflexivity|]);
    rewrite <- ?app_assoc; split; reflexivity.
Qed.

(** C5. For a registered handle and a non-empty sequence of destinations,
    [send_] publishes the full payload, data included, to each destination
    in order, under the handle's id; the handle it returns has the same
    id, empty storage, [is_pointer=true] and the destinations as owners,
    and that is what the registry is told last. Every registration of the
    handle on the way carries its original id. *)
Theorem send_leaves_pointer (E : environment) (tensor_type : string)
    (self : torch_obj) (r : registration) (ws : list worker_id) (st : state) :
  reg self = Some r ->
  ws <> [] ->
  let payload := registered_as self (mk_registration (id r) ws false) in
  let pointer :=
    mk_torch_obj (torch_type self) [] (Some (mk_registration (id r) ws true))
      (attrs self) in
  exists st' evs,
    send_ E tensor_type self (Addresses ws) st = (Ok pointer, st')
    /\ storage payload = storage self
    /\ messages st' = (messages st ++ map (fun w => Published w payload) ws)%list
    /\ trace st'
       = (trace st ++ Registered payload :: map (fun w => Published w payload) ws
          ++ evs ++ [Registered pointer])%list
    /\ forallb is_registered evs = true.
Proof.
  intros Hreg _ payload pointer.
  unfold send_, check_workers, get_reg. rewrite Hreg.
  rewrite bind_run. unfold lift at 1. cbv beta iota.
  rewrite bind_run, register_object_with_id. fold payload.
  rewrite bind_run, for_each_send_obj.
  rewrite bind_run.
  match goal with
  | |- context [construct_empty E tensor_type ?s] =>
      destruct (construct_empty_run E tensor_type s)
        as (o & st1 & evs & Hrun & _ & Hsto & _ & Ht & Hevs)
  end.
  rewrite Hrun. rewrite bind_run. unfold lift at 1. cbn [reg payload registered_as id].
  rewrite register_object_with_id.
  assert (Hptr : registered_as (old_set_ payload o) (mk_registration (id r) ws true)
                 = pointer).
  { unfold registered_as, old_set_, pointer. simpl. now rewrite Hsto. }
  rewrite Hptr. eexists _, evs. split; [reflexivity|]. split; [reflexivity|].
  simpl in Ht. split; [|split].
  - unfold messages. cbn [trace]. rewrite Ht. rewrite !filter_app. simpl.
    rewrite (registered_is_no_message evs Hevs). rewrite !app_nil_r.
    now rewrite published_are_messages.
  - cbn [trace]. rewrite Ht. rewrite <- !app_assoc. reflexivity.
  - exact Hevs.
Qed.

Lemma send_leaves_pointer_witness :
  exists st' evs,
    send_ Example.E "FloatTensor" Example.x_local
      (Addresses [Example.bob; Example.carol]) Example.st0
    = (Ok (Example.tensor 5 [Example.bob; Example.carol] true []), st')
    /\ storage (Example.tensor 5 [Example.bob; Example.carol] false [1; 2; 3])
       = [1; 2; 3]
    /\ messages st'
       = [Published Example.bob
            (Example.tensor 5 [Example.bob; Example.carol] false [1; 2; 3]);
          Published Example.carol
            (Example.tensor 5 [Example.bob; Example.carol] false [1; 2; 3])]
    /\ trace st'
       = (Registered (Example.tensor 5 [Example.bob; Example.carol] false [1; 2; 3])
          :: [Published Example.bob
                (Example.tensor 5 [Example.bob; Example.carol] false [1; 2; 3]);
              Published Example.carol
                (Example.tensor 5 [Example.bob; Example.carol] false [1; 2; 3])]
          ++ evs
          ++ [Registered (Example.tensor 5 [Example.bob; Example.carol] true [])])%list
    /\ forallb is_registered evs = true.
Proof.
  apply (send_leaves_pointer Example.E "FloatTensor" Example.x_local
           (mk_registration 5 [Example.alice] false)
           [Example.bob; Example.carol] Example.st0).
  - reflexivity.
  - discriminate.
Defined.

Lemma received_registered (x : torch_obj) (rx : registration) :
  reg x = Some rx ->
  received x = registered_as x (mk_registration (id rx) (owners rx) false).
Proof. intros H. unfold received. now rewrite H. Qed.

Lemma collect_run (E : environment) (self : torch_obj) (r : registration)
    (ws : list worker_id) :
  reg self = Some r ->
  (forall w, In w ws -> reg (obj_response E w (id r)) <> None) ->
  forall collected st,
    collect E self ws collected st
    = (Ok (collected ++ map (fun w => received (obj_response E w (id r))) ws)%list,
       mk_state (next_id st)
         (trace st
          ++ flat_map (fun w => [RequestedObj w (id r);
                                 Registered (received (obj_response E w (id r)))])
                      ws)).
Proof.
  intros Hreg. induction ws as [|w ws IH]; intros Hpay collected st.
  - simpl. unfold ret. rewrite !app_nil_r. now destruct st.
  - cbn [collect]. rewrite bind_run.
    unfold request_obj, get_reg at 1. rewrite Hreg.
    rewrite bind_run. unfold lift at 1. cbv beta iota.
    rewrite bind_run. unfold log at 1. cbv beta iota. unfold ret at 1.
    cbv beta iota.
    destruct (reg (obj_response E w (id r))) as [rx|] eqn:Hx.
    2:{ exfalso. apply (Hpay w); [now left|assumption]. }
    rewrite bind_run. unfold get_reg at 1. rewrite Hx. unfold lift at 1.
    cbv beta iota. rewrite bind_run, register_object_with_id. cbv beta.
    rewrite Hx.
    rewrite IH by (intros w' Hw'; apply Hpay; now right).
    cbn [map flat_map]. rewrite (received_registered _ _ Hx).
    cbn [next_id trace app]. rewrite <- !app_assoc. reflexivity.
Qed.

(** C6. [get_] returns the handle as it is, with nothing sent or
    registered, when the local worker is among its owners. Otherwise it
    requests the payload from each owner in the order of [owners],
    registers each payload it receives, applies [reduce] to the payloads
    collected in that order, puts the storage of the payload [reduce]
    selects into the handle and registers the handle under its original
    id: the handle is then not a pointer and its owners are the ones it
    had. The default [reduce] selects the first payload collected. *)
Theorem get_fetches_from_owners (E : environment) (self : torch_obj)
    (r : registration) (reduce : list torch_obj -> result torch_obj) (st : state) :
  reg self = Some r ->
  (In (me E) (owners r) -> get_ E self reduce st = (Ok self, st))
  /\ (forall x,
         ~ In (me E) (owners r) ->
         (forall w, In w (owners r) -> reg (obj_response E w (id r)) <> None) ->
         reduce (map (fun w => received (obj_response E w (id r))) (owners r)) = Ok x ->
         let fetched :=
           mk_torch_obj (torch_type self) (storage x)
             (Some (mk_registration (id r) (owners r) false)) (attrs self) in
         get_ E self reduce st
         = (Ok fetched,
            mk_state (next_id st)
              (trace st
               ++ flat_map (fun w => [RequestedObj w (id r);
                                      Registered (received (obj_response E w (id r)))])
                           (owners r)
               ++ [Registered fetched])))
  /\ (forall x collected, first_collected (x :: collected) = Ok x).
Proof.
  intros Hreg. split; [|split].
  - intros Hin. unfold get_, get_reg. rewrite Hreg. rewrite bind_run.
    unfold lift at 1. cbv beta iota.
    apply mem_In in Hin. rewrite Hin. reflexivity.
  - intros x Hout Hpay Hred fetched. unfold get_, get_reg. rewrite Hreg.
    rewrite bind_run. unfold lift at 1. cbv beta iota.
    apply mem_false in Hout. rewrite Hout.
    rewrite bind_run, (collect_run E self r (owners r) Hreg Hpay). cbn [app].
    rewrite Hred. rewrite bind_run. unfold lift at 1. cbv beta iota.
    rewrite bind_run. unfold lift at 1. cbv beta iota.
    rewrite register_object_with_id. cbn [old_set_ reg]. rewrite Hreg.
    unfold fetched, registered_as. cbn [torch_type storage attrs next_id trace].
    rewrite <- app_assoc. reflexivity.
  - reflexivity.
Qed.

Lemma get_fetches_from_owners_witness :
  get_ Example.E Example.x_local first_collected Example.st0
  = (Ok Example.x_local, Example.st0)
  /\ get_ Example.E Example.x_bob first_collected Example.st0
     = (Ok (Example.tensor 6 [Example.bob] false [4; 5; 6]),
        mk_state 100
          [RequestedObj Example.bob 6;
           Registered (Example.tensor 6 [Example.bob] false [4; 5; 6]);
           Registered (Example.tensor 6 [Example.bob] false [4; 5; 6])]).
Proof.
  split.
  - apply (get_fetches_from_owners Example.E Example.x_local
             (mk_registration 5 [Example.alice] false) first_collected Example.st0
             eq_refl).
    simpl. now left.
  - apply (proj1 (proj2 (get_fetches_from_owners Example.E Example.x_bob
                           (mk_registration 6 [Example.bob] true) first_collected
                           Example.st0 eq_refl))
             (Example.tensor 6 [Example.bob] false [4; 5; 6])).
    + simpl. intros [H|[]]. discriminate.
    + simpl. intros w _. discriminate.
    + reflexivity.
Defined.

(** ** Responses *)

(** A response that is a dictionary with neither a [numeric] nor a
    [registration] entry is handed back as it is. *)
Lemma response_without_registration_is_returned (E : environment)
    (command d : dict) (w : worker_id) (st : state) :
  command_response E w command = VDict d ->
  dict_find d "numeric" = None ->
  dict_find d "registration" = None ->
  function_workers E command [w] None st
  = (Ok (VDict d), mk_state (next_id st) (trace st ++ [SentCommand w command])).
Proof.
  intros Hresp Hnum Hregn. cbn [function_workers].
  rewrite bind_run, send_command_run, Hresp.
  unfold process_response, getitem, dict_get. rewrite Hnum.
  step. unfold getitem, dict_get. rewrite Hregn. reflexivity.
Qed.

Lemma response_without_registration_is_returned_witness :
  function_workers Example.E [("command", VStr "is_cuda")] [Example.bob] None
    Example.st0
  = (Ok (VDict [("answer", VBool false)]),
     mk_state 100 [SentCommand Example.bob [("command", VStr "is_cuda")]]).
Proof.
  apply (response_without_registration_is_returned Example.E
           [("command", VStr "is_cuda")] [("answer", VBool false)] Example.bob
           Example.st0); reflexivity.
Defined.

(** A response that carries registration metadata and names a tracked
    result type yields a pointer: a zero-sized instance of that type,
    registered with the metadata of the response. *)
Lemma registration_response_gives_pointer (E : environment) (command d : dict)
    (w : worker_id) (registration : value) (cls : string) (i : Z)
    (ws : list worker_id) (p : bool) (st : state) :
  command_response E w command = VDict d ->
  dict_find d "numeric" = None ->
  dict_find d "registration" = Some registration ->
  dict_find d "torch_type" = Some (VStr cls) ->
  mem cls (tensorvar_types E) = true ->
  registration_kwargs registration = Ok (mk_reg_kwargs (Some i) (Some ws) (Some p)) ->
  let pointer := mk_torch_obj cls [] (Some (mk_registration i ws p)) [] in
  exists st' evs,
    function_workers E command [w] None st = (Ok (VObj pointer), st')
    /\ trace st'
       = (trace st ++ SentCommand w command :: evs ++ [Registered pointer])%list
    /\ forallb is_registered evs = true.
Proof.
  intros Hresp Hnum Hregn Htype Hcls Hkw pointer.
  cbn [function_workers]. rewrite bind_run, send_command_run, Hresp.
  unfold process_response, getitem, dict_get. rewrite Hnum. cbv beta iota.
  rewrite bind_run. unfold except_KeyError.
  rewrite bind_run. rewrite Hregn. unfold lift at 1. cbv beta iota.
  rewrite bind_run. rewrite Htype. unfold lift at 1. cbv beta iota.
  rewrite bind_run. unfold assemble_result_pointer, types_guard. rewrite Hcls.
  rewrite bind_run.
  match goal with
  | |- context [construct_empty E cls ?s] =>
      destruct (construct_empty_run E cls s)
        as (o & st1 & evs & Hrun & Hty & Hsto & Hat & Ht & Hevs)
  end.
  rewrite Hrun. rewrite bind_run, Hkw. unfold lift at 1. cbv beta iota.
  rewrite register_object_with_id.
  assert (Hptr : registered_as o (mk_registration i ws p) = pointer).
  { unfold registered_as, pointer. now rewrite Hty, Hsto, Hat. }
  rewrite Hptr. unfold ret. cbv beta iota.
  eexists _, evs. split; [reflexivity|]. split; [|exact Hevs].
  cbn [trace] in *. rewrite Ht, <- !app_assoc. reflexivity.
Qed.

Lemma registration_response_gives_pointer_witness :
  exists st' evs,
    function_workers Example.E [("command", VStr "add")] [Example.bob] None Example.st0
    = (Ok (VObj (Example.tensor 77 [Example.bob] true [])), st')
    /\ trace st'
       = (trace Example.st0
          ++ SentCommand Example.bob [("command", VStr "add")]
             :: evs ++ [Registered (Example.tensor 77 [Example.bob] true [])])%list
    /\ forallb is_registered evs = true.
Proof.
  eapply (registration_response_gives_pointer Example.E [("command", VStr "add")]
            _ Example.bob _ "FloatTensor" 77 [Example.bob] true Example.st0);
    reflexivity.
Defined.

(** A response carrying a number under [numeric] is reduced to that number
    by [process_response]; subscripting the number with ['registration']
    then raises [TypeError], which the handler for [KeyError] lets
    through. *)
Lemma numeric_response_raises (E : environment) (command : dict) (w : worker_id)
    (n : Z) (st : state) :
  command_response E w command = VDict [("numeric", VInt n)] ->
  function_workers E command [w] None st
  = (Raise TypeError, mk_state (next_id st) (trace st ++ [SentCommand w command])).
Proof.
  intros Hresp. cbn [function_workers].
  rewrite bind_run, send_command_run, Hresp. reflexivity.
Qed.

(** C7, at the failing input: [alice] calls the hooked [torch.sum] on a
    pointer to a tensor at [bob], and [bob] answers with the scalar
    response [{numeric: 15}], which carries no registration metadata. The
    command is sent, and the call ends in [TypeError] instead of returning
    15. *)
Theorem scalar_response_ends_in_TypeError :
  command_response Example.E Example.bob
    (replace_in_command Example.E
       [("has_self", VBool false); ("command", VStr "sum");
        ("args", VTuple [VObj Example.x_bob]); ("kwargs", VDict []);
        ("arg_types", VList [VStr "FloatTensor"]); ("kwarg_types", VList [])])
  = VDict [("numeric", VInt 15)]
  /\ overload_function Example.E (pass_func_args Example.torch_sum)
       [VObj Example.x_bob] [] Example.st0
     = (Raise TypeError,
        mk_state 100
          [SentCommand Example.bob
             [("has_self", VBool false); ("command", VStr "sum");
              ("args", VTuple [reference (mk_registration 6 [Example.bob] true)]);
              ("kwargs", VDict []);
              ("arg_types", VList [VStr "FloatTensor"]); ("kwarg_types", VList [])]]).
Proof.
  split; reflexivity.
Qed.

(** The [TypeError] meant for an unrecognized result type is never
    raised: building its message reads [_tensor_type], a name bound
    nowhere, so the failure is a [NameError]. *)
Lemma unrecognized_type_raises_NameError (E : environment)
    (registration torch_type : value) (st : state) :
  types_guard E torch_type = Raise KeyError ->
  assemble_result_pointer E registration torch_type st = (Raise NameError, st).
Proof.
  intros Hguard. unfold assemble_result_pointer. rewrite Hguard. reflexivity.
Qed.

(** C8, at the failing input: a response that declares the result type
    [ndarray], which is not a tracked type. Assembling the result pointer
    fails with [NameError], not with a [TypeError] naming the type, and so
    does the call that received the response. *)
Theorem unrecognized_result_type_ends_in_NameError :
  types_guard Example.E (VStr "ndarray") = Raise KeyError
  /\ assemble_result_pointer Example.E
       (VDict [("id", VInt 77); ("owners", VList [VStr Example.bob]);
               ("is_pointer", VBool true)])
       (VStr "ndarray") Example.st0
     = (Raise NameError, Example.st0)
  /\ fst (overload_function Example.E (pass_func_args Example.torch_numpy)
            [VObj Example.x_bob] [] Example.st0)
     = Raise NameError.
Proof.
  repeat split; reflexivity.
Qed.

(** ** Variable contents *)

Lemma hasattr_setattr_flag (o : torch_obj) (name : string) :
  hasattr (setattr_flag o name) name = true.
Proof.
  unfold setattr_flag. destruct (hasattr o name) eqn:H; unfold hasattr in *; simpl.
  - exact H.
  - apply mem_In. apply in_or_app. right. now left.
Qed.

Lemma own_registration_registered (self : variable) (r : registration) :
  reg (var self) = Some r ->
  own_registration self
  = Ok (mk_reg_kwargs (Some (id r)) (Some (owners r)) (Some (is_pointer r))).
Proof.
  intros H. unfold own_registration, get_reg. rewrite H. reflexivity.
Qed.

(** C10. On a hooked Variable the first access to [data] registers the
    underlying tensor under the Variable's own id, owners and
    [is_pointer], once, and sets the memo flag; the first access to [grad]
    does the same for a gradient that is not [None], while a [None]
    gradient is returned with nothing registered and no flag set. Once a
    flag is set, every access returns the cached tensor and leaves the
    registry alone. *)
Theorem contents_registered_once (E : environment) (self : variable)
    (r : registration) (st : state) :
  reg (var self) = Some r ->
  (hasattr (var self) "data_registered" = false ->
   let data := registered_as (old_data self) r in
   let self' :=
     mk_variable (setattr_flag (var self) "data_registered") data (old_grad self) in
   new_data E self st
   = (Ok (data, self'), mk_state (next_id st) (trace st ++ [Registered data]))
   /\ forall st', new_data E self' st' = (Ok (data, self'), st'))
  /\ (forall g,
         hasattr (var self) "grad_registered" = false ->
         old_grad self = Some g ->
         let grad := registered_as g r in
         let self' :=
           mk_variable (setattr_flag (var self) "grad_registered") (old_data self)
             (Some grad) in
         new_grad E self st
         = (Ok (Some grad, self'), mk_state (next_id st) (trace st ++ [Registered grad]))
         /\ forall st', new_grad E self' st' = (Ok (Some grad, self'), st'))
  /\ (hasattr (var self) "grad_registered" = false ->
      old_grad self = None ->
      new_grad E self st = (Ok (None, self), st))
  /\ (hasattr (var self) "data_registered" = true ->
      new_data E self st = (Ok (old_data self, self), st))
  /\ (hasattr (var self) "grad_registered" = true ->
      new_grad E self st = (Ok (old_grad self, self), st)).
Proof.
  intros Hreg. split; [|split; [|split; [|split]]].
  - intros Hflag data self'. split.
    + unfold new_data. rewrite Hflag, (own_registration_registered self r Hreg).
      rewrite bind_run. unfold lift at 1. cbv beta iota.
      rewrite bind_run, register_object_with_id. destruct r. reflexivity.
    + intros st'. unfold new_data, self'. cbn [var].
      rewrite hasattr_setattr_flag. reflexivity.
  - intros g Hflag Hg grad self'. split.
    + unfold new_grad. rewrite Hflag, Hg, (own_registration_registered self r Hreg).
      rewrite bind_run. unfold lift at 1. cbv beta iota.
      rewrite bind_run, register_object_with_id. destruct r. reflexivity.
    + intros st'. unfold new_grad, self'. cbn [var].
      rewrite hasattr_setattr_flag. reflexivity.
  - intros Hflag Hg. unfold new_grad. rewrite Hflag, Hg. reflexivity.
  - intros Hflag. unfold new_data. rewrite Hflag. reflexivity.
  - intros Hflag. unfold new_grad. rewrite Hflag. reflexivity.
Qed.

Lemma contents_registered_once_witness :
  (new_data Example.E Example.v0 Example.st0
   = (Ok (registered_as (old_data Example.v0) (mk_registration 11 [Example.alice] false),
          mk_variable (setattr_flag (var Example.v0) "data_registered")
            (registered_as (old_data Example.v0)
               (mk_registration 11 [Example.alice] false))
            (old_grad Example.v0)),
      mk_state 100
        [Registered (registered_as (old_data Example.v0)
                       (mk_registration 11 [Example.alice] false))])
   /\ forall st',
       new_data Example.E
         (mk_variable (setattr_flag (var Example.v0) "data_registered")
            (registered_as (old_data Example.v0)
               (mk_registration 11 [Example.alice] false))
            (old_grad Example.v0)) st'
       = (Ok (registered_as (old_data Example.v0)
                (mk_registration 11 [Example.alice] false),
              mk_variable (setattr_flag (var Example.v0) "data_registered")
                (registered_as (old_data Example.v0)
                   (mk_registration 11 [Example.alice] false))
                (old_grad Example.v0)),
          st'))
  /\ (new_grad Example.E Example.v0 Example.st0
      = (Ok (Some (registered_as Example.g0 (mk_registration 11 [Example.alice] false)),
             mk_variable (setattr_flag (var Example.v0) "grad_registered")
               (old_data Example.v0)
               (Some (registered_as Example.g0
                        (mk_registration 11 [Example.alice] false)))),
         mk_state 100
           [Registered (registered_as Example.g0
                          (mk_registration 11 [Example.alice] false))])
      /\ forall st',
          new_grad Example.E
            (mk_variable (setattr_flag (var Example.v0) "grad_registered")
               (old_data Example.v0)
               (Some (registered_as Example.g0
                        (mk_registration 11 [Example.alice] false)))) st'
          = (Ok (Some (registered_as Example.g0
                         (mk_registration 11 [Example.alice] false)),
                 mk_variable (setattr_flag (var Example.v0) "grad_registered")
                   (old_data Example.v0)
                   (Some (registered_as Example.g0
                            (mk_registration 11 [Example.alice] false)))),
             st')).
Proof.
  split.
  - apply (proj1 (contents_registered_once Example.E Example.v0
                    (mk_registration 11 [Example.alice] false) Example.st0 eq_refl)).
    reflexivity.
  - apply (proj1 (proj2 (contents_registered_once Example.E Example.v0
                           (mk_registration 11 [Example.alice] false) Example.st0
                           eq_refl)) Example.g0); reflexivity.
Defined.

(** ** The hooking pass *)

Lemma is_old_prefixed (name : string) : is_old ("old_" ++ name) = true.
Proof. reflexivity. Qed.

Lemma hookable_exclusions (excluded : list string) (attr : string) (lit : member) :
  hookable excluded attr lit = true ->
  ~ In attr excluded /\ ~ In attr dir_object /\ is_old attr = false.
Proof.
  unfold hookable. intros H.
  apply andb_prop in H as [Hex H]. apply andb_prop in H as [H Hold].
  apply andb_prop in H as [_ Hbase].
  apply negb_true_iff in Hex, Hbase, Hold.
  repeat split; [now apply mem_false|now apply mem_false|assumption].
Qed.

Lemma not_hookable_if_excluded (excluded : list string) (attr : string) (lit : member) :
  In attr excluded \/ In attr dir_object \/ is_old attr = true ->
  hookable excluded attr lit = false.
Proof.
  intros H. destruct (hookable excluded attr lit) eqn:Hh; [|reflexivity].
  apply hookable_exclusions in Hh as (Hex & Hbase & Hold).
  destruct H as [H|[H|H]]; [contradiction|contradiction|congruence].
Qed.

Lemma hook_attr_skips (excluded : list string) (cls : namespace) (attr : string) :
  (forall lit, dict_find cls attr = Some lit -> hookable excluded attr lit = false) ->
  hook_attr excluded cls attr = cls.
Proof.
  intros H. unfold hook_attr. destruct (dict_find cls attr) as [lit|]; [|reflexivity].
  now rewrite (H lit eq_refl).
Qed.

(** One iteration writes at most the name it visits and that name under
    the reserved prefix. *)
Lemma hook_attr_frame (excluded : list string) (cls : namespace) (a attr : string) :
  attr <> a -> attr <> "old_" ++ a ->
  dict_find (hook_attr excluded cls a) attr = dict_find cls attr.
Proof.
  intros Ha Hold. unfold hook_attr.
  destruct (dict_find cls a) as [lit|]; [|reflexivity].
  destruct (hookable excluded a lit); [|reflexivity].
  rewrite dict_find_set_other by assumption.
  apply dict_find_set_other. assumption.
Qed.

Lemma not_old_not_prefixed (attr a : string) :
  is_old attr = false -> attr <> "old_" ++ a.
Proof.
  intros H ->. rewrite is_old_prefixed in H. discriminate.
Qed.

(** A name outside the reserved prefix that the test rejects keeps its
    value through the whole loop. *)
Lemma hook_attrs_keeps_rejected (excluded : list string) (attr : string)
    (l : list string) :
  is_old attr = false ->
  forall cls,
    (forall lit, dict_find cls attr = Some lit -> hookable excluded attr lit = false) ->
    dict_find (fold_left (hook_attr excluded) l cls) attr = dict_find cls attr.
Proof.
  intros Hold. induction l as [|a l IH]; intros cls Hrej; [reflexivity|].
  cbn [fold_left]. destruct (String.eqb_spec attr a) as [->|Hne].
  - rewrite (hook_attr_skips excluded cls a Hrej). now apply IH.
  - assert (Hsame : dict_find (hook_attr excluded cls a) attr = dict_find cls attr)
      by (apply hook_attr_frame; [assumption|now apply not_old_not_prefixed]).
    rewrite IH; [exact Hsame|]. intros lit Hlit. apply Hrej. now rewrite <- Hsame.
Qed.

(** A name the loop does not visit keeps its value, and so does what is
    saved for it under the reserved prefix. *)
Lemma hook_attrs_keeps_unvisited (excluded : list string) (attr : string)
    (l : list string) :
  is_old attr = false -> ~ In attr l ->
  forall cls,
    dict_find (fold_left (hook_attr excluded) l cls) attr = dict_find cls attr
    /\ dict_find (fold_left (hook_attr excluded) l cls) ("old_" ++ attr)
       = dict_find cls ("old_" ++ attr).
Proof.
  intros Hold. induction l as [|a l IH]; intros Hnot cls; [split; reflexivity|].
  cbn [fold_left]. assert (Hne : attr <> a) by (intros ->; apply Hnot; now left).
  destruct (IH (fun H => Hnot (or_intror H)) (hook_attr excluded cls a)) as [IH1 IH2].
  rewrite IH1, IH2. split.
  - apply hook_attr_frame; [assumption|now apply not_old_not_prefixed].
  - unfold hook_attr. destruct (dict_find cls a) as [lit|] eqn:Hlit; [|reflexivity].
    destruct (hookable excluded a lit) eqn:Hh; [|reflexivity].
    apply hookable_exclusions in Hh as (_ & _ & Holda).
    rewrite dict_find_set_other.
    + apply dict_find_set_other. intros H. apply Hne.
      simpl in H. now injection H.
    + intros H. rewrite <- H, is_old_prefixed in Holda. discriminate.
Qed.

(** A name the test accepts is saved under the reserved prefix and
    replaced by its wrapper. *)
Lemma hook_attrs_overloads (excluded : list string) (attr : string) (lit : member)
    (l : list string) :
  NoDup l -> In attr l ->
  hookable excluded attr lit = true ->
  forall cls,
    dict_find cls attr = Some lit ->
    dict_find (fold_left (hook_attr excluded) l cls) attr = Some (Overloaded lit)
    /\ dict_find (fold_left (hook_attr excluded) l cls) ("old_" ++ attr) = Some lit.
Proof.
  intros Hnd Hin Hh.
  pose proof (hookable_exclusions _ _ _ Hh) as (_ & _ & Hold).
  induction l as [|a l IH]; [contradiction|].
  intros cls Hlit. cbn [fold_left]. inversion Hnd as [|? ? Hnotin Hnd']; subst.
  destruct (String.eqb_spec attr a) as [->|Hne].
  - destruct (hook_attrs_keeps_unvisited excluded a l Hold Hnotin
                (hook_attr excluded cls a)) as [K1 K2].
    rewrite K1, K2. unfold hook_attr. rewrite Hlit, Hh.
    split.
    + apply dict_find_set_same.
    + rewrite dict_find_set_other.
      * apply dict_find_set_same.
      * intros H. exact (not_old_not_prefixed a a Hold (eq_sym H)).
  - destruct Hin as [->|Hin]; [contradiction|].
    apply IH; [assumption|assumption|].
    rewrite hook_attr_frame; [assumption|assumption|now apply not_old_not_prefixed].
Qed.

Lemma enumerate_hookable (excluded : list string) (cls : namespace) (attr : string) :
  In attr (enumerate excluded cls) ->
  exists lit, In (attr, lit) cls /\ hookable excluded attr lit = true.
Proof.
  unfold enumerate. rewrite in_map_iff. intros [[k lit] [Hk Hin]].
  simpl in Hk. subst k. apply filter_In in Hin as [Hin Hh]. eauto.
Qed.

Lemma dict_find_nodup {A : Type} (d : list (string * A)) (k : string) (v : A) :
  NoDup (keys d) -> In (k, v) d -> dict_find d k = Some v.
Proof.
  induction d as [|[k' v'] d IH]; simpl; [tauto|].
  intros Hnd [[= -> ->]|Hin].
  - now rewrite String.eqb_refl.
  - inversion Hnd as [|? ? Hnotin Hnd']; subst.
    destruct (String.eqb_spec k k') as [->|_].
    + exfalso. apply Hnotin. unfold keys. apply in_map_iff. now exists (k', v).
    + now apply IH.
Qed.

(** C9, as stated, fails: a second [hook_tensor] pass over a hooked class
    changes it. After one pass [old___new__] and [old_add] hold the
    original [__new__] and [add]; after the second they hold the wrappers
    the first pass installed, and [add] is a wrapper around a wrapper. *)
Lemma second_hooking_pass_changes_class :
  exists once twice,
    hook_tensor Example.install_ser Example.FloatTensor = Ok once
    /\ hook_tensor Example.install_ser once = Ok twice
    /\ dict_find once "old___new__" = Some (MethodDescriptor "FloatTensorBase.__new__")
    /\ dict_find twice "old___new__"
       = Some (service_function "hook_tensor___new__" "new___new__")
    /\ dict_find once "old_add" = Some (MethodDescriptor "FloatTensorBase.add")
    /\ dict_find twice "old_add"
       = Some (Overloaded (MethodDescriptor "FloatTensorBase.add"))
    /\ dict_find once "add" = Some (Overloaded (MethodDescriptor "FloatTensorBase.add"))
    /\ dict_find twice "add"
       = Some (Overloaded (Overloaded (MethodDescriptor "FloatTensorBase.add")))
    /\ twice <> once.
Proof.
  eexists _, _. split; [vm_compute; reflexivity|].
  split; [vm_compute; reflexivity|].
  repeat (split; [vm_compute; reflexivity|]).
  intros H. apply (f_equal (fun d => dict_find d "add")) in H.
  vm_compute in H. discriminate.
Qed.

(** C9, amended. The loop of the hooking pass overloads no name of the
    fixed blacklist, no attribute inherited from the universal base type
    and no name under the reserved prefix; visiting a name under the
    reserved prefix never changes the class, so a saved original is never
    itself wrapped. Every name the enumeration does yield has its value
    saved under the reserved prefix and a wrapper around that value
    installed in its place, and the blacklisted and the base-type names
    keep their value through the loop. *)
Theorem hooking_pass_exclusions (excluded : list string) (cls : namespace) :
  NoDup (keys cls) ->
  (forall attr,
      In attr (enumerate excluded cls) ->
      ~ In attr excluded /\ ~ In attr dir_object /\ is_old attr = false
      /\ forall name, attr <> "old_" ++ name)
  /\ (forall name cls', hook_attr excluded cls' ("old_" ++ name) = cls')
  /\ (forall attr lit,
         In attr (enumerate excluded cls) ->
         dict_find cls attr = Some lit ->
         dict_find (hook_attrs excluded cls) attr = Some (Overloaded lit)
         /\ dict_find (hook_attrs excluded cls) ("old_" ++ attr) = Some lit)
  /\ (forall attr,
         is_old attr = false ->
         In attr excluded \/ In attr dir_object ->
         dict_find (hook_attrs excluded cls) attr = dict_find cls attr).
Proof.
  intros Hnd. split; [|split; [|split]].
  - intros attr Hin.
    destruct (enumerate_hookable excluded cls attr Hin) as (lit & _ & Hh).
    apply hookable_exclusions in Hh as (Hex & Hbase & Hold).
    repeat split; try assumption.
    intros name. now apply not_old_not_prefixed.
  - intros name cls'. apply hook_attr_skips. intros lit _.
    apply not_hookable_if_excluded. right. right. apply is_old_prefixed.
  - intros attr lit Hin Hlit.
    destruct (enumerate_hookable excluded cls attr Hin) as (lit' & Hentry & Hh).
    rewrite (dict_find_nodup cls attr lit' Hnd Hentry) in Hlit.
    injection Hlit as ->.
    apply hook_attrs_overloads; try assumption.
    + unfold keys. apply in_map_iff. now exists (attr, lit).
    + now apply dict_find_nodup.
  - intros attr Hold Hexcl. apply hook_attrs_keeps_rejected; [assumption|].
    intros lit _. apply not_hookable_if_excluded.
    destruct Hexcl; [now left|right; now left].
Qed.

Lemma hooking_pass_exclusions_witness :
  (forall attr,
      In attr (enumerate exclude Example.FloatTensor) ->
      ~ In attr exclude /\ ~ In attr dir_object /\ is_old attr = false
      /\ forall name, attr <> "old_" ++ name)
  /\ (forall name cls', hook_attr exclude cls' ("old_" ++ name) = cls')
  /\ (forall attr lit,
         In attr (enumerate exclude Example.FloatTensor) ->
         dict_find Example.FloatTensor attr = Some lit ->
         dict_find (hook_attrs exclude Example.FloatTensor) attr = Some (Overloaded lit)
         /\ dict_find (hook_attrs exclude Example.FloatTensor) ("old_" ++ attr)
            = Some lit)
  /\ (forall attr,
         is_old attr = false ->
         In attr exclude \/ In attr dir_object ->
         dict_find (hook_attrs exclude Example.FloatTensor) attr
         = dict_find Example.FloatTensor attr).
Proof.
  apply (hooking_pass_exclusions exclude Example.FloatTensor).
  vm_compute. repeat (constructor; [simpl; intuition discriminate|]). constructor.
Defined.

Lemma overload_method_pointer_raises_witness :
  overload_method Example.E (pass_method_args Example.tensor_add)
    Example.x_bob [VObj Example.x_bob] [] Example.st0
  = (Raise AttributeError, Example.st0).
Proof.
  eapply (overload_method_pointer_raises Example.E Example.tensor_add Example.x_bob
            [VObj Example.x_bob] []); reflexivity.
Defined.

(** * Further properties *)

(** ** Command compilation: the receiver *)

Lemma compile_command_without_self (p : partial) :
  exists tags,
    kwarg_type_names (keywords p) = Ok tags
    /\ compile_command p false
       = Ok [("has_self", VBool false); ("command", VStr (__name__ (func p)));
             ("args", VTuple (args p)); ("kwargs", VDict (keywords p));
             ("arg_types", VList (map tag (args p))); ("kwarg_types", VList tags)].
Proof.
  destruct p as [f a kw]. destruct (kwarg_type_names_total kw) as [tags Htags].
  exists tags. split; [assumption|].
  unfold compile_command. simpl. rewrite Htags. reflexivity.
Qed.

(** Compiling a call as a method needs a receiver: with no positional
    argument at all it raises [IndexError], and that is the only way
    [compile_command] fails. Compiled as a free function a call always
    yields a command, and that command has no [self] entry, while a
    command compiled as a method always has one. *)
Theorem compile_command_receiver (p : partial) (has_self : bool) :
  (compile_command p has_self = Raise IndexError
   <-> has_self = true /\ args p = [])
  /\ (forall e, compile_command p has_self = Raise e -> e = IndexError)
  /\ (forall command,
         compile_command p has_self = Ok command ->
         (dict_get command "self" = Raise KeyError <-> has_self = false)
         /\ dict_get command "has_self" = Ok (VBool has_self)).
Proof.
  destruct p as [f a kw]. destruct (kwarg_type_names_total kw) as [tags Htags].
  unfold compile_command. simpl. destruct has_self; simpl.
  - destruct a as [|a0 rest]; simpl.
    + split; [split; [auto|reflexivity]|]. split.
      * intros e [= <-]. reflexivity.
      * intros command H. discriminate.
    + rewrite Htags. simpl. split; [split; [discriminate|intros [_ H]; discriminate]|].
      split; [intros e H; discriminate|].
      intros command [= <-]. split; [|reflexivity].
      split; [discriminate|discriminate].
  - rewrite Htags. simpl. split; [split; [discriminate|intros [H _]; discriminate]|].
    split; [intros e H; discriminate|].
    intros command [= <-]. split; [|reflexivity]. split; reflexivity.
Qed.

(** ** Dispatch of free functions *)

(** Entering a computation whose first step has been rewritten to a
    value: only that step is run. *)
Ltac enter := rewrite bind_run; unfold lift at 1; cbv beta iota zeta.

Lemma messages_extended (st : state) (evs : list event) :
  messages (mk_state (next_id st) (trace st ++ evs))
  = (messages st ++ filter is_message evs)%list.
Proof. unfold messages. simpl. apply filter_app. Qed.

Lemma call_original_run (E : environment) (part : partial) (args : list value)
    (kwargs : dict) (st : state) :
  call_original E part args kwargs st
  = (torch_call E (func part) args kwargs,
     mk_state (next_id st) (trace st ++ [Executed (func part) args kwargs])).
Proof. reflexivity. Qed.

(** The local branch, whatever the original callable does: it is called
    once, and nothing is sent. *)
Lemma local_branch_quiet (E : environment) (skip : torch_obj -> bool)
    (part : partial) (args : list value) (kwargs : dict) (st : state) :
  exists r st' evs,
    (result <- call_original E part args kwargs ;;
     register_result E skip result) st = (r, st')
    /\ trace st' = (trace st ++ Executed (func part) args kwargs :: evs)%list
    /\ forallb is_registered evs = true.
Proof.
  rewrite bind_run, call_original_run.
  destruct (torch_call E (func part) args kwargs) as [result|e].
  - unfold register_result.
    destruct result as [| | | | | | |o];
      try (eexists _, _, []; split; [reflexivity|]; split; reflexivity).
    destruct (tracked E (VObj o) && negb (skip o)).
    + rewrite bind_run. unfold only_is_pointer, register_object. step. simpl.
      eexists _, _, [_]. split; [reflexivity|]. simpl.
      rewrite <- app_assoc. split; reflexivity.
    + eexists _, _, []. split; [reflexivity|]. split; reflexivity.
  - eexists _, _, []. split; [reflexivity|]. split; reflexivity.
Qed.

Lemma get_owners_not_multiple (tensorvars : list torch_obj) (ws : list worker_id) :
  get_owners tensorvars = (false, ws) -> ws = [] \/ exists w, ws = [w].
Proof.
  unfold get_owners. intros [= Hlen <-].
  apply Nat.ltb_ge in Hlen.
  destruct (nodup string_dec (flat_map owners_of tensorvars)) as [|w [|w' l]].
  - now left.
  - right. now exists w.
  - simpl in Hlen. lia.
Qed.

(** A call of a hooked free function sends at most one message, and that
    message is a command: either nothing leaves the worker (the call ran
    locally or was refused), or exactly one command was sent to one
    worker. It never publishes or requests an object. *)
Theorem overload_function_sends_at_most_once (E : environment) (f : function)
    (args : list value) (kwargs : dict) (st : state) :
  exists r st',
    overload_function E (pass_func_args f) args kwargs st = (r, st')
    /\ (messages st' = messages st
        \/ exists w command,
             messages st' = (messages st ++ [SentCommand w command])%list).
Proof.
  destruct (compile_command_without_self (pass_func_args f args kwargs))
    as [tags [_ Hc]].
  unfold overload_function. rewrite Hc. enter.
  match goal with
  | |- context [check_remote ?tv] =>
      destruct (check_remote tv) eqn:Hremote;
      [destruct (get_owners tv) as [multiple ws] eqn:Howners|]
  end.
  - destruct multiple.
    + eexists _, _. split; [reflexivity|]. now left.
    + destruct (get_owners_not_multiple _ _ Howners) as [->|[w ->]].
      * eexists _, _. split; [reflexivity|]. now left.
      * match goal with
        | |- context [function_workers E ?c [w] None st] =>
            destruct (function_workers_single E c w st)
              as (r & st' & evs & Hrun & Ht & Hevs)
        end.
        exists r, st'. split; [exact Hrun|]. right.
        eexists w, _. unfold messages. rewrite Ht, filter_app. simpl.
        now rewrite (registered_is_no_message evs Hevs).
  - destruct (local_branch_quiet E (fun _ => false)
                (pass_func_args f args kwargs) args kwargs st)
      as (r & st' & evs & Hrun & Ht & Hevs).
    exists r, st'. split; [exact Hrun|]. left.
    unfold messages. rewrite Ht, filter_app. simpl.
    rewrite (registered_is_no_message evs Hevs). apply app_nil_r.
Qed.

(** A remote operand that names no owner at all: the owners are not
    multiple, the loop over them does not run, and the wrapper ends in
    [UnboundLocalError] on its [return pointer], having sent nothing. *)
Theorem overload_function_without_owner (E : environment) (f : function)
    (args : list value) (kwargs command : dict) (st : state) :
  compile_command (pass_func_args f args kwargs) false = Ok command ->
  check_remote (get_tensorvars E command) = true ->
  (forall o, In o (get_tensorvars E command) -> owners_of o = []) ->
  overload_function E (pass_func_args f) args kwargs st
  = (Raise UnboundLocalError, st).
Proof.
  intros Hc Hremote Hnone.
  assert (Hflat : flat_map owners_of (get_tensorvars E command) = []).
  { revert Hnone. generalize (get_tensorvars E command).
    induction l as [|o l IH]; intros Hnone; [reflexivity|].
    simpl. rewrite (Hnone o) by now left. apply IH.
    intros o' Ho'. apply Hnone. now right. }
  unfold overload_function. rewrite Hc. enter. rewrite Hremote.
  unfold get_owners. rewrite Hflat. reflexivity.
Qed.

Lemma overload_function_without_owner_witness :
  overload_function Example.E (pass_func_args Example.torch_add)
    [VObj Example.x_nowhere; VInt 1] [] Example.st0
  = (Raise UnboundLocalError, Example.st0).
Proof.
  eapply (overload_function_without_owner Example.E Example.torch_add
            [VObj Example.x_nowhere; VInt 1] []).
  - reflexivity.
  - reflexivity.
  - simpl. intros o [<-|[]]. reflexivity.
Defined.

(** A local call whose result is not an instance of a tracked class (a
    number, a sequence, an object of another class) hands the result back
    as it is and writes nothing to the registry; and when the original
    callable raises, the exception comes out unchanged, again with nothing
    registered. *)
Theorem overload_function_local_plain (E : environment) (f : function)
    (args : list value) (kwargs command : dict) (st : state) :
  compile_command (pass_func_args f args kwargs) false = Ok command ->
  check_remote (get_tensorvars E command) = false ->
  (forall result,
      torch_call E f args kwargs = Ok result ->
      tracked E result = false ->
      overload_function E (pass_func_args f) args kwargs st
      = (Ok result, mk_state (next_id st) (trace st ++ [Executed f args kwargs])))
  /\ (forall e,
         torch_call E f args kwargs = Raise e ->
         overload_function E (pass_func_args f) args kwargs st
         = (Raise e, mk_state (next_id st) (trace st ++ [Executed f args kwargs]))).
Proof.
  intros Hc Hlocal. split.
  - intros result Hcall Huntracked.
    unfold overload_function. rewrite Hc. enter. rewrite Hlocal.
    rewrite bind_run, call_original_run. cbn [func pass_func_args].
    rewrite Hcall. unfold register_result.
    destruct result; try reflexivity. rewrite Huntracked. reflexivity.
  - intros e Hcall.
    unfold overload_function. rewrite Hc. enter. rewrite Hlocal.
    rewrite bind_run, call_original_run. cbn [func pass_func_args].
    rewrite Hcall. reflexivity.
Qed.

Lemma overload_function_local_plain_witness :
  overload_function Example.E_plain (pass_func_args Example.torch_dot)
    [VObj Example.x_local; VObj Example.x_local] [] Example.st0
  = (Ok (VInt 32),
     mk_state 100
       [Executed Example.torch_dot [VObj Example.x_local; VObj Example.x_local] []])
  /\ overload_function Example.E_plain (pass_func_args Example.torch_add)
       [VObj Example.x_local] [] Example.st0
     = (Raise TypeError,
        mk_state 100 [Executed Example.torch_add [VObj Example.x_local] []]).
Proof.
  split.
  - eapply (proj1 (overload_function_local_plain Example.E_plain Example.torch_dot
                     [VObj Example.x_local; VObj Example.x_local] [] _ Example.st0
                     eq_refl eq_refl)); reflexivity.
  - eapply (proj2 (overload_function_local_plain Example.E_plain Example.torch_add
                     [VObj Example.x_local] [] _ Example.st0 eq_refl eq_refl));
      reflexivity.
Defined.

(** ** The pointer operations, composed *)

Lemma send_run (E : environment) (tensor_type : string) (self : torch_obj)
    (r : registration) (ws : list worker_id) (st : state) :
  reg self = Some r ->
  exists st' evs,
    send_ E tensor_type self (Addresses ws) st
    = (Ok (mk_torch_obj (torch_type self) []
             (Some (mk_registration (id r) ws true)) (attrs self)), st')
    /\ trace st'
       = (trace st
          ++ Registered (registered_as self (mk_registration (id r) ws false))
             :: map (fun w =>
                       Published w
                         (registered_as self (mk_registration (id r) ws false))) ws
          ++ evs
          ++ [Registered (mk_torch_obj (torch_type self) []
                            (Some (mk_registration (id r) ws true)) (attrs self))])%list
    /\ forallb is_registered evs = true.
Proof.
  intros Hreg.
  unfold send_, check_workers, get_reg. rewrite Hreg. enter.
  rewrite bind_run, register_object_with_id.
  rewrite bind_run, for_each_send_obj. rewrite bind_run.
  match goal with
  | |- context [construct_empty E tensor_type ?s] =>
      destruct (construct_empty_run E tensor_type s)
        as (o & st1 & evs & Hrun & _ & Hsto & _ & Ht & Hevs)
  end.
  rewrite Hrun. rewrite bind_run. unfold lift at 1. cbn [reg registered_as id].
  rewrite register_object_with_id.
  unfold registered_as, old_set_. cbn [torch_type storage attrs reg]. rewrite Hsto.
  eexists _, evs. split; [reflexivity|]. split; [|exact Hevs].
  cbn [trace] in *. rewrite Ht. rewrite <- !app_assoc. reflexivity.
Qed.

Lemma get_run (E : environment) (self : torch_obj) (r : registration)
    (reduce : list torch_obj -> result torch_obj) (x : torch_obj) (st : state) :
  reg self = Some r ->
  ~ In (me E) (owners r) ->
  (forall w, In w (owners r) -> reg (obj_response E w (id r)) <> None) ->
  reduce (map (fun w => received (obj_response E w (id r))) (owners r)) = Ok x ->
  get_ E self reduce st
  = (Ok (mk_torch_obj (torch_type self) (storage x)
           (Some (mk_registration (id r) (owners r) false)) (attrs self)),
     mk_state (next_id st)
       (trace st
        ++ flat_map (fun w => [RequestedObj w (id r);
                               Registered (received (obj_response E w (id r)))])
                    (owners r)
        ++ [Registered (mk_torch_obj (torch_type self) (storage x)
                          (Some (mk_registration (id r) (owners r) false))
                          (attrs self))])).
Proof.
  intros Hreg Hout Hpay Hred. unfold get_, get_reg. rewrite Hreg. enter.
  apply mem_false in Hout. rewrite Hout.
  rewrite bind_run, (collect_run E self r (owners r) Hreg Hpay). cbn [app].
  rewrite Hred. enter. enter.
  rewrite register_object_with_id. cbn [old_set_ reg]. rewrite Hreg.
  unfold registered_as. cbn [torch_type storage attrs next_id trace].
  rewrite <- app_assoc. reflexivity.
Qed.

(** [send_] followed by [get_] is a round trip. When the local worker is
    not among the destinations and the first destination answers the
    request with the payload that was published to it, [get_] on the
    pointer [send_] left gives back a handle with the original class,
    storage and attributes under the original id, no longer a pointer;
    its owners are still the destinations. *)
Theorem send_then_get_round_trip (E : environment) (tensor_type : string)
    (self : torch_obj) (r : registration) (w : worker_id) (ws : list worker_id)
    (st : state) :
  reg self = Some r ->
  ~ In (me E) (w :: ws) ->
  obj_response E w (id r)
  = registered_as self (mk_registration (id r) (w :: ws) false) ->
  (forall w', In w' ws -> reg (obj_response E w' (id r)) <> None) ->
  exists pointer st1 st2,
    send_ E tensor_type self (Addresses (w :: ws)) st = (Ok pointer, st1)
    /\ storage pointer = []
    /\ get_ E pointer first_collected st1
       = (Ok (registered_as self (mk_registration (id r) (w :: ws) false)), st2)
    /\ messages st2
       = (messages st
          ++ map (fun w' =>
                    Published w'
                      (registered_as self (mk_registration (id r) (w :: ws) false)))
                 (w :: ws)
          ++ map (fun w' => RequestedObj w' (id r)) (w :: ws))%list.
Proof.
  intros Hreg Hout Hfirst Hrest.
  destruct (send_run E tensor_type self r (w :: ws) st Hreg)
    as (st1 & evs & Hsend & Ht & Hevs).
  eexists _, st1, _. split; [exact Hsend|]. split; [reflexivity|].
  assert (Hget := get_run E
            (mk_torch_obj (torch_type self) []
               (Some (mk_registration (id r) (w :: ws) true)) (attrs self))
            (mk_registration (id r) (w :: ws) true) first_collected
            (registered_as self (mk_registration (id r) (w :: ws) false)) st1
            eq_refl Hout).
  cbn [id owners] in Hget.
  rewrite Hget; clear Hget.
  - split; [reflexivity|].
    unfold messages. cbn [trace]. rewrite Ht. rewrite !filter_app.
    cbn [filter is_message]. rewrite !filter_app.
    rewrite published_are_messages, (registered_is_no_message evs Hevs).
    cbn [filter is_message app]. rewrite <- !app_assoc. cbn [app].
    f_equal. f_equal. f_equal.
    assert (Hreq : forall l,
               filter is_message
                 (flat_map (fun w0 => [RequestedObj w0 (id r);
                                       Registered (received (obj_response E w0 (id r)))])
                           l)
               = map (fun w' => RequestedObj w' (id r)) l).
    { induction l as [|a l IH]; [reflexivity|]. simpl. now rewrite IH. }
    rewrite app_nil_r. rewrite (Hreq (w :: ws)). reflexivity.
  - intros w' [<-|Hin].
    + rewrite Hfirst. discriminate.
    + now apply Hrest.
  - cbn [map]. rewrite Hfirst. reflexivity.
Qed.

Lemma send_then_get_round_trip_witness :
  exists pointer st1 st2,
    send_ Example.E "FloatTensor" Example.x_456 (Addresses [Example.bob]) Example.st0
    = (Ok pointer, st1)
    /\ storage pointer = []
    /\ get_ Example.E pointer first_collected st1
       = (Ok (Example.tensor 5 [Example.bob] false [4; 5; 6]), st2)
    /\ messages st2
       = [Published Example.bob (Example.tensor 5 [Example.bob] false [4; 5; 6]);
          RequestedObj Example.bob 5].
Proof.
  apply (send_then_get_round_trip Example.E "FloatTensor" Example.x_456
           (mk_registration 5 [Example.alice] false) Example.bob [] Example.st0).
  - reflexivity.
  - simpl. intros [H|[]]. discriminate.
  - reflexivity.
  - intros w' [].
Defined.

(** Sending a pointer forwards no data. After [send_] the handle's
    storage is the zero-sized placeholder, and a second [send_] of that
    handle publishes exactly that: every new destination receives a
    payload with empty storage under the handle's id. *)
Theorem send_of_a_pointer_forwards_nothing (E : environment) (tensor_type : string)
    (self : torch_obj) (r : registration) (ws ws' : list worker_id) (st : state) :
  reg self = Some r ->
  exists pointer st1 pointer' st2,
    send_ E tensor_type self (Addresses ws) st = (Ok pointer, st1)
    /\ send_ E tensor_type pointer (Addresses ws') st1 = (Ok pointer', st2)
    /\ messages st2
       = (messages st1
          ++ map (fun w =>
                    Published w
                      (mk_torch_obj (torch_type self) []
                         (Some (mk_registration (id r) ws' false)) (attrs self)))
                 ws')%list
    /\ reg pointer' = Some (mk_registration (id r) ws' true).
Proof.
  intros Hreg.
  destruct (send_run E tensor_type self r ws st Hreg)
    as (st1 & evs & Hsend & _ & _).
  destruct (send_run E tensor_type
              (mk_torch_obj (torch_type self) []
                 (Some (mk_registration (id r) ws true)) (attrs self))
              (mk_registration (id r) ws true) ws' st1 eq_refl)
    as (st2 & evs' & Hsend' & Ht' & Hevs').
  eexists _, st1, _, st2. split; [exact Hsend|]. split; [exact Hsend'|].
  split; [|reflexivity].
  unfold messages. rewrite Ht'. rewrite !filter_app. cbn [filter is_message].
  rewrite !filter_app, published_are_messages.
  rewrite (registered_is_no_message evs' Hevs'). cbn [filter is_message app].
  rewrite app_nil_r. reflexivity.
Qed.

Lemma send_of_a_pointer_forwards_nothing_witness :
  exists pointer st1 pointer' st2,
    send_ Example.E "FloatTensor" Example.x_local (Addresses [Example.bob])
      Example.st0 = (Ok pointer, st1)
    /\ send_ Example.E "FloatTensor" pointer (Addresses [Example.carol]) st1
       = (Ok pointer', st2)
    /\ messages st2
       = (messages st1
          ++ [Published Example.carol (Example.tensor 5 [Example.carol] false [])])%list
    /\ reg pointer' = Some (mk_registration 5 [Example.carol] true).
Proof.
  apply (send_of_a_pointer_forwards_nothing Example.E "FloatTensor" Example.x_local
           (mk_registration 5 [Example.alice] false) [Example.bob] [Example.carol]
           Example.st0).
  reflexivity.
Defined.

(** The pointer operations on a handle they cannot work with. A handle
    the registry has never seen has no [id] and no [owners]: [send_] and
    [get_] raise [AttributeError] before doing anything. A registered
    handle without any owner makes [get_] collect nothing, and the default
    [reduce] then raises [IndexError]; nothing has been requested. *)
Theorem pointer_operations_need_a_registered_owner (E : environment)
    (tensor_type : string) (self : torch_obj) (st : state) :
  (reg self = None ->
   forall workers reduce,
     send_ E tensor_type self workers st = (Raise AttributeError, st)
     /\ get_ E self reduce st = (Raise AttributeError, st))
  /\ (forall r,
         reg self = Some r -> owners r = [] ->
         get_ E self first_collected st = (Raise IndexError, st)).
Proof.
  split.
  - intros Hreg workers reduce. unfold send_, get_, get_reg. rewrite Hreg.
    split; reflexivity.
  - intros r Hreg Hnone. unfold get_, get_reg. rewrite Hreg, Hnone. reflexivity.
Qed.

Lemma pointer_operations_need_a_registered_owner_witness :
  (send_ Example.E "FloatTensor" Example.g0 (Address Example.bob) Example.st0
   = (Raise AttributeError, Example.st0)
   /\ get_ Example.E Example.g0 first_collected Example.st0
      = (Raise AttributeError, Example.st0))
  /\ get_ Example.E Example.x_nowhere first_collected Example.st0
     = (Raise IndexError, Example.st0).
Proof.
  split.
  - apply (proj1 (pointer_operations_need_a_registered_owner Example.E "FloatTensor"
                    Example.g0 Example.st0)).
    reflexivity.
  - apply (proj2 (pointer_operations_need_a_registered_owner Example.E "FloatTensor"
                    Example.x_nowhere Example.st0)
             (mk_registration 10 [] true)); reflexivity.
Defined.

(** [get_] is not atomic. When [reduce] raises, the exception comes out of
    [get_] after every owner has been asked for the payload and every
    payload has been registered locally; the handle itself has not been
    registered again. *)
Theorem get_with_failing_reduce (E : environment) (self : torch_obj)
    (r : registration) (reduce : list torch_obj -> result torch_obj) (e : exn)
    (st : state) :
  reg self = Some r ->
  ~ In (me E) (owners r) ->
  (forall w, In w (owners r) -> reg (obj_response E w (id r)) <> None) ->
  reduce (map (fun w => received (obj_response E w (id r))) (owners r)) = Raise e ->
  get_ E self reduce st
  = (Raise e,
     mk_state (next_id st)
       (trace st
        ++ flat_map (fun w => [RequestedObj w (id r);
                               Registered (received (obj_response E w (id r)))])
                    (owners r))).
Proof.
  intros Hreg Hout Hpay Hred. unfold get_, get_reg. rewrite Hreg. enter.
  apply mem_false in Hout. rewrite Hout.
  rewrite bind_run, (collect_run E self r (owners r) Hreg Hpay). cbn [app].
  rewrite Hred. reflexivity.
Qed.

Lemma get_with_failing_reduce_witness :
  get_ Example.E Example.x_bob (fun _ => Raise TypeError) Example.st0
  = (Raise TypeError,
     mk_state 100
       [RequestedObj Example.bob 6;
        Registered (Example.tensor 6 [Example.bob] false [4; 5; 6])]).
Proof.
  apply (get_with_failing_reduce Example.E Example.x_bob
           (mk_registration 6 [Example.bob] true) (fun _ => Raise TypeError)
           TypeError Example.st0).
  - reflexivity.
  - simpl. intros [H|[]]. discriminate.
  - simpl. intros w _. discriminate.
  - reflexivity.
Defined.

(** ** Representation *)

(** How a handle prints. A handle the local worker owns prints through
    the original [__repr__]. Once [send_] has moved it to workers that do
    not include the local one, it prints as the summary of its class and
    of the destinations, which the original [__repr__], the storage and
    the id have no part in. A handle the registry has never seen cannot be
    printed: reading its owners raises [AttributeError]. *)
Theorem repr_follows_ownership (E : environment) (module name tensor_type : string)
    (old__repr__ : torch_obj -> string) (format_owners : list worker_id -> string)
    (self : torch_obj) (st : state) :
  (forall r,
      reg self = Some r -> In (me E) (owners r) ->
      new___repr__ E module name old__repr__ format_owners self
      = Ok (old__repr__ self))
  /\ (forall r ws,
         reg self = Some r -> ~ In (me E) ws ->
         exists pointer st',
           send_ E tensor_type self (Addresses ws) st = (Ok pointer, st')
           /\ new___repr__ E module name old__repr__ format_owners pointer
              = Ok ("[" ++ module ++ "." ++ name ++ " - Locations:"
                    ++ format_owners ws ++ "]"))
  /\ (reg self = None ->
      new___repr__ E module name old__repr__ format_owners self
      = Raise AttributeError).
Proof.
  split; [|split].
  - intros r Hreg Hin. unfold new___repr__, get_reg. rewrite Hreg. simpl.
    apply mem_In in Hin. now rewrite Hin.
  - intros r ws Hreg Hout.
    destruct (send_run E tensor_type self r ws st Hreg) as (st' & evs & Hsend & _).
    eexists _, st'. split; [exact Hsend|].
    unfold new___repr__, get_reg. cbn [reg owners rbind].
    apply mem_false in Hout. now rewrite Hout.
  - intros Hreg. unfold new___repr__, get_reg. now rewrite Hreg.
Qed.

Lemma repr_follows_ownership_witness :
  new___repr__ Example.E "torch" "FloatTensor" (fun _ => "1 2 3")
    (fun _ => "['bob']") Example.x_local
  = Ok "1 2 3"
  /\ (exists pointer st',
         send_ Example.E "FloatTensor" Example.x_local (Addresses [Example.bob])
           Example.st0 = (Ok pointer, st')
         /\ new___repr__ Example.E "torch" "FloatTensor" (fun _ => "1 2 3")
              (fun _ => "['bob']") pointer
            = Ok "[torch.FloatTensor - Locations:['bob']]").
Proof.
  split.
  - apply (proj1 (repr_follows_ownership Example.E "torch" "FloatTensor" "FloatTensor"
                    (fun _ => "1 2 3") (fun _ => "['bob']") Example.x_local
                    Example.st0)
             (mk_registration 5 [Example.alice] false)).
    + reflexivity.
    + simpl. now left.
  - apply (proj1 (proj2 (repr_follows_ownership Example.E "torch" "FloatTensor"
                           "FloatTensor" (fun _ => "1 2 3") (fun _ => "['bob']")
                           Example.x_local Example.st0))
             (mk_registration 5 [Example.alice] false) [Example.bob]).
    + reflexivity.
    + simpl. intros [H|[]]. discriminate.
Defined.

(** ** Variable contents: what an access leaves alone *)

Lemma hasattr_setattr_flag_other (o : torch_obj) (name name' : string) :
  name' <> name ->
  hasattr (setattr_flag o name) name' = hasattr o name'.
Proof.
  intros Hne. unfold setattr_flag. destruct (hasattr o name); [reflexivity|].
  unfold hasattr, mem. simpl. rewrite existsb_app. simpl.
  destruct (String.eqb_spec name' name); [contradiction|].
  now rewrite !orb_false_r.
Qed.

(** An access to [data] or to [grad] never changes the Variable's own
    registration, and neither property disturbs the other: [data] leaves
    the gradient and its memo flag as they are, [grad] leaves the data and
    its memo flag as they are. The tensor an access returns is the one the
    Variable keeps afterwards, with the class and storage it had before. *)
Theorem contents_accesses_are_independent (E : environment) (self : variable)
    (st : state) :
  (forall t self' st',
      new_data E self st = (Ok (t, self'), st') ->
      reg (var self') = reg (var self)
      /\ old_grad self' = old_grad self
      /\ hasattr (var self') "grad_registered" = hasattr (var self) "grad_registered"
      /\ old_data self' = t
      /\ torch_type t = torch_type (old_data self)
      /\ storage t = storage (old_data self))
  /\ (forall t self' st',
         new_grad E self st = (Ok (t, self'), st') ->
         reg (var self') = reg (var self)
         /\ old_data self' = old_data self
         /\ hasattr (var self') "data_registered" = hasattr (var self) "data_registered"
         /\ old_grad self' = t
         /\ option_map torch_type t = option_map torch_type (old_grad self)
         /\ option_map storage t = option_map storage (old_grad self)).
Proof.
  split.
  - intros t self' st'. unfold new_data.
    destruct (hasattr (var self) "data_registered").
    + intros [= <- <- _]. repeat split; reflexivity.
    + destruct (own_registration self) as [kw|e]; [|discriminate]. enter.
      unfold register_object.
      destruct (kw_id kw); step; intros [= <- <- _]; cbn [var old_grad old_data];
        (split; [reflexivity|]); (split; [reflexivity|]);
        (split; [apply hasattr_setattr_flag_other; discriminate|]);
        repeat split; reflexivity.
  - intros t self' st'. unfold new_grad.
    destruct (hasattr (var self) "grad_registered").
    + intros [= <- <- _]. repeat split; reflexivity.
    + destruct (old_grad self) as [g|] eqn:Hg.
      * destruct (own_registration self) as [kw|e]; [|discriminate]. enter.
        unfold register_object.
        destruct (kw_id kw); step; intros [= <- <- _]; cbn [var old_grad old_data];
          (split; [reflexivity|]); (split; [reflexivity|]);
          (split; [apply hasattr_setattr_flag_other; discriminate|]);
          repeat split; reflexivity.
      * intros [= <- <- _]. rewrite Hg. repeat split; reflexivity.
Qed.

(** Reading the contents of a Variable the registry has never seen: the
    first access to [data], and to a gradient that is not [None], raises
    [AttributeError] with nothing registered; a [None] gradient is
    returned all the same, since nothing of the Variable is read for it. *)
Theorem contents_of_an_unregistered_variable (E : environment) (self : variable)
    (st : state) :
  reg (var self) = None ->
  (hasattr (var self) "data_registered" = false ->
   new_data E self st = (Raise AttributeError, st))
  /\ (hasattr (var self) "grad_registered" = false ->
      (old_grad self <> None -> new_grad E self st = (Raise AttributeError, st))
      /\ (old_grad self = None -> new_grad E self st = (Ok (None, self), st))).
Proof.
  intros Hreg. split.
  - intros Hflag. unfold new_data, own_registration, get_reg.
    rewrite Hflag, Hreg. reflexivity.
  - intros Hflag. split.
    + intros Hg. unfold new_grad, own_registration, get_reg. rewrite Hflag, Hreg.
      destruct (old_grad self); [reflexivity|contradiction].
    + intros Hg. unfold new_grad. rewrite Hflag, Hg. reflexivity.
Qed.

Lemma contents_of_an_unregistered_variable_witness :
  new_data Example.E (mk_variable Example.g0 Example.g0 None) Example.st0
  = (Raise AttributeError, Example.st0)
  /\ new_grad Example.E (mk_variable Example.g0 Example.g0 None) Example.st0
     = (Ok (None, mk_variable Example.g0 Example.g0 None), Example.st0).
Proof.
  destruct (contents_of_an_unregistered_variable Example.E
              (mk_variable Example.g0 Example.g0 None) Example.st0 eq_refl)
    as [Hdata Hgrad].
  split.
  - apply Hdata. reflexivity.
  - apply (proj2 (Hgrad eq_refl)). reflexivity.
Defined.

Lemma contents_accesses_are_independent_witness :
  reg (var (mk_variable (setattr_flag (var Example.v0) "data_registered")
              (registered_as (old_data Example.v0)
                 (mk_registration 11 [Example.alice] false))
              (old_grad Example.v0)))
  = reg (var Example.v0)
  /\ old_grad (mk_variable (setattr_flag (var Example.v0) "data_registered")
                 (registered_as (old_data Example.v0)
                    (mk_registration 11 [Example.alice] false))
                 (old_grad Example.v0))
     = old_grad Example.v0
  /\ hasattr (var (mk_variable (setattr_flag (var Example.v0) "data_registered")
                     (registered_as (old_data Example.v0)
                        (mk_registration 11 [Example.alice] false))
                     (old_grad Example.v0))) "grad_registered"
     = hasattr (var Example.v0) "grad_registered"
  /\ old_data (mk_variable (setattr_flag (var Example.v0) "data_registered")
                 (registered_as (old_data Example.v0)
                    (mk_registration 11 [Example.alice] false))
                 (old_grad Example.v0))
     = registered_as (old_data Example.v0) (mk_registration 11 [Example.alice] false)
  /\ torch_type (registered_as (old_data Example.v0)
                   (mk_registration 11 [Example.alice] false))
     = torch_type (old_data Example.v0)
  /\ storage (registered_as (old_data Example.v0)
                (mk_registration 11 [Example.alice] false))
     = storage (old_data Example.v0).
Proof.
  apply (proj1 (contents_accesses_are_independent Example.E Example.v0 Example.st0)
           _ _ (mk_state 100
                  [Registered (registered_as (old_data Example.v0)
                                 (mk_registration 11 [Example.alice] false))])).
  reflexivity.
Defined.

(** ** The hooking pass over a class, as a whole *)

(** What the loop saved for a name it rejects stays as it was. *)
Lemma hook_attrs_keeps_saved (excluded : list string) (attr : string)
    (l : list string) :
  is_old attr = false ->
  forall cls,
    (forall lit, dict_find cls attr = Some lit -> hookable excluded attr lit = false) ->
    dict_find (fold_left (hook_attr excluded) l cls) ("old_" ++ attr)
    = dict_find cls ("old_" ++ attr).
Proof.
  intros Hold. induction l as [|a l IH]; intros cls Hrej; [reflexivity|].
  cbn [fold_left]. destruct (String.eqb_spec attr a) as [->|Hne].
  - rewrite (hook_attr_skips excluded cls a Hrej). now apply IH.
  - assert (Hattr : dict_find (hook_attr excluded cls a) attr = dict_find cls attr)
      by (apply hook_attr_frame; [assumption|now apply not_old_not_prefixed]).
    rewrite IH by (intros lit Hlit; apply Hrej; now rewrite <- Hattr).
    destruct (is_old a) eqn:Holda.
    + rewrite hook_attr_skips; [reflexivity|].
      intros lit _. apply not_hookable_if_excluded. now right; right.
    + apply hook_attr_frame.
      * intros H. rewrite <- H, is_old_prefixed in Holda. discriminate.
      * intros H. apply Hne. simpl in H. now injection H.
Qed.

Lemma base_name_rejected (excluded : list string) (attr : string) (cls : namespace) :
  In attr dir_object ->
  forall lit, dict_find cls attr = Some lit -> hookable excluded attr lit = false.
Proof.
  intros Hbase lit _. apply not_hookable_if_excluded. right. now left.
Qed.

(** The class as [hook_tensor] leaves it just before [tu.hook_tensor_ser]
    is applied. *)
Lemma hook_tensor_before_ser (hook_tensor_ser : namespace -> namespace)
    (cls cls' : namespace) :
  hook_tensor hook_tensor_ser cls = Ok cls' ->
  exists mid original_new original_repr,
    cls' = hook_tensor_ser mid
    /\ dict_find cls "__new__" = Some original_new
    /\ dict_find cls "__repr__" = Some original_repr
    /\ dict_find mid "__init__"
       = Some (service_function "hook_tensor___init__" "new___init__")
    /\ dict_find mid "__new__"
       = Some (service_function "hook_tensor___new__" "new___new__")
    /\ dict_find mid "__repr__"
       = Some (service_function "hook_tensor___repr__" "new___repr__")
    /\ dict_find mid "old___new__" = Some original_new
    /\ dict_find mid "send_" = Some (service_function "hook_tensor_send" "send_")
    /\ dict_find mid "get_" = Some (service_function "hook_tensor_get" "get_").
Proof.
  unfold hook_tensor, hook_tensor___new__, hook_tensor___repr__, hook_tensor___init__,
    class_getattr.
  rewrite (dict_find_set_other cls "__init__" "__new__") by discriminate.
  destruct (dict_find cls "__new__") as [n|] eqn:Hn; [|discriminate].
  cbn [rbind].
  rewrite !(dict_find_set_other _ _ "__repr__") by discriminate.
  destruct (dict_find cls "__repr__") as [p|] eqn:Hp; [|discriminate].
  cbn [rbind]. intros [= <-].
  eexists _, n, p. split; [reflexivity|]. split; [reflexivity|]. split; [reflexivity|].
  unfold hook_tensor_get, hook_tensor_send, hook_attrs.
  repeat split.
  - rewrite !dict_find_set_other by discriminate.
    rewrite hook_attrs_keeps_rejected;
      [|reflexivity|apply base_name_rejected; vm_compute; tauto].
    rewrite !dict_find_set_other by discriminate. apply dict_find_set_same.
  - rewrite !dict_find_set_other by discriminate.
    rewrite hook_attrs_keeps_rejected;
      [|reflexivity|apply base_name_rejected; vm_compute; tauto].
    rewrite !dict_find_set_other by discriminate. apply dict_find_set_same.
  - rewrite !dict_find_set_other by discriminate.
    rewrite hook_attrs_keeps_rejected;
      [|reflexivity|apply base_name_rejected; vm_compute; tauto].
    apply dict_find_set_same.
  - rewrite !dict_find_set_other by discriminate.
    rewrite (hook_attrs_keeps_saved exclude "__new__");
      [|reflexivity|apply base_name_rejected; vm_compute; tauto].
    rewrite !dict_find_set_other by discriminate. apply dict_find_set_same.
  - rewrite dict_find_set_other by discriminate. apply dict_find_set_same.
  - apply dict_find_set_same.
Qed.

(** What [hook_tensor] installs on a class, whatever else the class
    contains: [__init__], [__new__] and [__repr__] become the service's
    own functions, the loop over the attributes leaves them alone, the
    original [__new__] is kept as [old___new__], and [send_] and [get_]
    are added. The pass fails, with [AttributeError], exactly when the
    class has no [__new__] or no [__repr__] to save. The serialization
    hook, which runs last and is not part of this file, is assumed to
    leave the six attributes as it finds them. *)
Theorem hook_tensor_installs (hook_tensor_ser : namespace -> namespace)
    (cls : namespace) :
  (forall c k,
      In k ["__init__"; "__new__"; "__repr__"; "old___new__"; "send_"; "get_"] ->
      dict_find (hook_tensor_ser c) k = dict_find c k) ->
  (forall cls',
      hook_tensor hook_tensor_ser cls = Ok cls' ->
      dict_find cls' "__init__"
      = Some (service_function "hook_tensor___init__" "new___init__")
      /\ dict_find cls' "__new__"
         = Some (service_function "hook_tensor___new__" "new___new__")
      /\ dict_find cls' "__repr__"
         = Some (service_function "hook_tensor___repr__" "new___repr__")
      /\ dict_find cls' "old___new__" = dict_find cls "__new__"
      /\ dict_find cls' "send_" = Some (service_function "hook_tensor_send" "send_")
      /\ dict_find cls' "get_" = Some (service_function "hook_tensor_get" "get_"))
  /\ (hook_tensor hook_tensor_ser cls = Raise AttributeError
      <-> dict_find cls "__new__" = None \/ dict_find cls "__repr__" = None)
  /\ (forall e, hook_tensor hook_tensor_ser cls = Raise e -> e = AttributeError).
Proof.
  intros Hser. split; [|split].
  - intros cls' Hrun.
    destruct (hook_tensor_before_ser hook_tensor_ser cls cls' Hrun)
      as (mid & n & p & -> & Hn & Hp & H1 & H2 & H3 & H4 & H5 & H6).
    rewrite !Hser by (simpl; tauto). rewrite Hn. repeat split; assumption.
  - unfold hook_tensor, hook_tensor___new__, hook_tensor___repr__,
      hook_tensor___init__, class_getattr.
    rewrite (dict_find_set_other cls "__init__" "__new__") by discriminate.
    destruct (dict_find cls "__new__") as [n|]; cbn [rbind].
    + rewrite !(dict_find_set_other _ _ "__repr__") by discriminate.
      destruct (dict_find cls "__repr__") as [p|]; cbn [rbind].
      * split; [discriminate|intros [H|H]; discriminate].
      * split; [now right|reflexivity].
    + split; [now left|reflexivity].
  - intros e. unfold hook_tensor, hook_tensor___new__, hook_tensor___repr__,
      hook_tensor___init__, class_getattr.
    rewrite (dict_find_set_other cls "__init__" "__new__") by discriminate.
    destruct (dict_find cls "__new__") as [n|]; cbn [rbind].
    + rewrite !(dict_find_set_other _ _ "__repr__") by discriminate.
      destruct (dict_find cls "__repr__") as [p|]; cbn [rbind].
      * discriminate.
      * now intros [= <-].
    + now intros [= <-].
Qed.

Lemma install_ser_frame (c : namespace) (k : string) :
  k <> "ser" -> dict_find (Example.install_ser c) k = dict_find c k.
Proof. intros H. unfold Example.install_ser. now apply dict_find_set_other. Qed.

Lemma hook_tensor_installs_witness :
  (forall cls',
      hook_tensor Example.install_ser Example.FloatTensor = Ok cls' ->
      dict_find cls' "__init__"
      = Some (service_function "hook_tensor___init__" "new___init__")
      /\ dict_find cls' "__new__"
         = Some (service_function "hook_tensor___new__" "new___new__")
      /\ dict_find cls' "__repr__"
         = Some (service_function "hook_tensor___repr__" "new___repr__")
      /\ dict_find cls' "old___new__" = dict_find Example.FloatTensor "__new__"
      /\ dict_find cls' "send_" = Some (service_function "hook_tensor_send" "send_")
      /\ dict_find cls' "get_" = Some (service_function "hook_tensor_get" "get_"))
  /\ (hook_tensor Example.install_ser Example.FloatTensor = Raise AttributeError
      <-> dict_find Example.FloatTensor "__new__" = None
          \/ dict_find Example.FloatTensor "__repr__" = None)
  /\ (forall e,
         hook_tensor Example.install_ser Example.FloatTensor = Raise e ->
         e = AttributeError).
Proof.
  apply (hook_tensor_installs Example.install_ser Example.FloatTensor).
  intros c k Hk. apply install_ser_frame.
  simpl in Hk. intuition (subst; discriminate).
Defined.

(** Hooking a class a second time loses the original constructor. After
    the first pass [old___new__] is the class's own [__new__]; after the
    second it is the wrapper the first pass installed, a function that
    itself calls [old___new__]. (The serialization hook is assumed to
    leave [__new__] and [old___new__] as it finds them.) *)
Theorem hook_tensor_twice_loses_new (hook_tensor_ser : namespace -> namespace)
    (cls once twice : namespace) :
  (forall c k, In k ["__new__"; "old___new__"] ->
               dict_find (hook_tensor_ser c) k = dict_find c k) ->
  hook_tensor hook_tensor_ser cls = Ok once ->
  hook_tensor hook_tensor_ser once = Ok twice ->
  dict_find once "old___new__" = dict_find cls "__new__"
  /\ dict_find twice "old___new__"
     = Some (service_function "hook_tensor___new__" "new___new__").
Proof.
  intros Hser Honce Htwice.
  destruct (hook_tensor_before_ser hook_tensor_ser cls once Honce)
    as (mid & n & p & -> & Hn & _ & _ & Hnew & _ & Hold & _).
  destruct (hook_tensor_before_ser hook_tensor_ser _ twice Htwice)
    as (mid' & n' & p' & -> & Hn' & _ & _ & Hnew' & _ & Hold' & _).
  rewrite !Hser by (simpl; tauto).
  rewrite Hser in Hn' by (simpl; tauto).
  rewrite Hnew in Hn'. injection Hn' as <-.
  rewrite Hold, Hn, Hold'. split; reflexivity.
Qed.

Lemma hook_tensor_twice_loses_new_witness :
  exists once twice,
    hook_tensor Example.install_ser Example.FloatTensor = Ok once
    /\ hook_tensor Example.install_ser once = Ok twice
    /\ dict_find once "old___new__" = dict_find Example.FloatTensor "__new__"
    /\ dict_find twice "old___new__"
       = Some (service_function "hook_tensor___new__" "new___new__").
Proof.
  eexists _, _. split; [vm_compute; reflexivity|]. split; [vm_compute; reflexivity|].
  eapply (hook_tensor_twice_loses_new Example.install_ser Example.FloatTensor).
  - intros c k Hk. apply install_ser_frame.
    simpl in Hk. intuition (subst; discriminate).
  - vm_compute. reflexivity.
  - vm_compute. reflexivity.
Defined.

(** What [hook_variable] installs on the Variable class, whatever else
    the class contains: [__new__] becomes the service's function and the
    original is kept as [old___new__]; [data] and [grad] become the
    memoising properties and the originals are kept as [old_data] and
    [old_grad]; the loop over the attributes wraps none of these, nor
    [__getattr__]. The pass fails, with [AttributeError], exactly when the
    class has no [__new__], no [data] or no [grad] to save. *)
Theorem hook_variable_installs (cls : namespace) :
  (forall cls',
      hook_variable cls = Ok cls' ->
      dict_find cls' "__new__"
      = Some (service_function "hook_var___new__" "new___new__")
      /\ dict_find cls' "old___new__" = dict_find cls "__new__"
      /\ dict_find cls' "data" = Some (Other "property new_data")
      /\ dict_find cls' "grad" = Some (Other "property new_grad")
      /\ dict_find cls' "old_data" = dict_find cls "data"
      /\ dict_find cls' "old_grad" = dict_find cls "grad"
      /\ dict_find cls' "__getattr__" = dict_find cls "__getattr__")
  /\ (hook_variable cls = Raise AttributeError
      <-> dict_find cls "__new__" = None \/ dict_find cls "data" = None
          \/ dict_find cls "grad" = None)
  /\ (forall e, hook_variable cls = Raise e -> e = AttributeError).
Proof.
  unfold hook_variable, hook_var___new__, hook_var_contents, class_getattr.
  destruct (dict_find cls "__new__") as [n|] eqn:Hn; cbn [rbind].
  2:{ split; [discriminate|]. split; [split; [now left|reflexivity]|].
      now intros e [= <-]. }
  rewrite !(dict_find_set_other _ _ "data") by discriminate.
  destruct (dict_find cls "data") as [d|] eqn:Hd; cbn [rbind].
  2:{ split; [discriminate|]. split; [split; [now right; left|reflexivity]|].
      now intros e [= <-]. }
  rewrite !(dict_find_set_other _ _ "grad") by discriminate.
  destruct (dict_find cls "grad") as [g|] eqn:Hg; cbn [rbind].
  2:{ split; [discriminate|]. split; [split; [now right; right|reflexivity]|].
      now intros e [= <-]. }
  split; [|split; [split; [discriminate|intros [H|[H|H]]; discriminate]|discriminate]].
  intros cls' [= <-]. unfold hook_attrs.
  assert (Hprop : forall (c : namespace) (k label : string) lit,
             dict_find (dict_set c k (Other label)) k = Some lit ->
             hookable (exclude ++ var_exclude) k lit = false).
  { intros c k label lit. rewrite dict_find_set_same. intros [= <-].
    unfold hookable. cbn [is_desc is_func andb orb]. now rewrite andb_false_r. }
  repeat split.
  - rewrite hook_attrs_keeps_rejected;
      [|reflexivity|apply base_name_rejected; vm_compute; tauto].
    rewrite !dict_find_set_other by discriminate. apply dict_find_set_same.
  - rewrite (hook_attrs_keeps_saved _ "__new__");
      [|reflexivity|apply base_name_rejected; vm_compute; tauto].
    rewrite !dict_find_set_other by discriminate. apply dict_find_set_same.
  - rewrite hook_attrs_keeps_rejected; [|reflexivity|].
    + rewrite !dict_find_set_other by discriminate. apply dict_find_set_same.
    + intros lit. rewrite dict_find_set_other by discriminate. apply Hprop.
  - rewrite hook_attrs_keeps_rejected; [|reflexivity|apply Hprop].
    apply dict_find_set_same.
  - rewrite (hook_attrs_keeps_saved _ "data"); [|reflexivity|].
    + rewrite !dict_find_set_other by discriminate. apply dict_find_set_same.
    + intros lit. rewrite dict_find_set_other by discriminate. apply Hprop.
  - rewrite (hook_attrs_keeps_saved _ "grad"); [|reflexivity|apply Hprop].
    rewrite !dict_find_set_other by discriminate. apply dict_find_set_same.
  - rewrite hook_attrs_keeps_rejected; [|reflexivity|].
    + now rewrite !dict_find_set_other by discriminate.
    + intros lit _. apply not_hookable_if_excluded. left. vm_compute. tauto.
Qed.

Lemma hook_variable_installs_witness :
  exists cls',
    hook_variable Example.Variable_cls = Ok cls'
    /\ dict_find cls' "__new__"
       = Some (service_function "hook_var___new__" "new___new__")
    /\ dict_find cls' "old___new__" = dict_find Example.Variable_cls "__new__"
    /\ dict_find cls' "data" = Some (Other "property new_data")
    /\ dict_find cls' "grad" = Some (Other "property new_grad")
    /\ dict_find cls' "old_data" = dict_find Example.Variable_cls "data"
    /\ dict_find cls' "old_grad" = dict_find Example.Variable_cls "grad"
    /\ dict_find cls' "__getattr__" = dict_find Example.Variable_cls "__getattr__".
Proof.
  eexists. split; [vm_compute; reflexivity|].
  apply (proj1 (hook_variable_installs Example.Variable_cls)).
  vm_compute. reflexivity.
Defined.

(** ** The hooking pass over the torch module *)

Lemma hook_torch_attr_frame (torch torch' : torch_namespace) (a k : string) :
  hook_torch_attr torch a = Ok torch' ->
  k <> a -> k <> "old_" ++ a ->
  dict_find torch' k = dict_find torch k.
Proof.
  unfold hook_torch_attr. intros Hrun Ha Hold.
  destruct (mem a torch_exclude); [now injection Hrun as <-|].
  destruct (dict_find torch a) as [lit|]; [|discriminate].
  destruct (is_function lit); injection Hrun as <-; [|reflexivity].
  rewrite dict_find_set_other by assumption.
  now apply dict_find_set_other.
Qed.

(** A name the loop does not visit, and that is not the reserved-prefix
    form of a name it visits, keeps its value, whether the loop completes
    or not. *)
Lemma hook_torch_module_frame (l : list string) (k : string) :
  ~ In k l -> (forall a, In a l -> k <> "old_" ++ a) ->
  forall torch,
    dict_find (snd (hook_torch_module l torch)) k = dict_find torch k.
Proof.
  induction l as [|a l IH]; intros Hnot Hold torch; [reflexivity|].
  cbn [hook_torch_module].
  destruct (hook_torch_attr torch a) as [torch'|e] eqn:Hrun; [|reflexivity].
  rewrite IH.
  - apply (hook_torch_attr_frame torch torch' a k Hrun).
    + intros ->. apply Hnot. now left.
    + apply Hold. now left.
  - intros H. apply Hnot. now right.
  - intros b Hb. apply Hold. now right.
Qed.

Lemma old_prefix_injective (a b : string) : "old_" ++ a = "old_" ++ b -> a = b.
Proof. simpl. intros H. now injection H. Qed.

(** What [hook_torch_module] does to the names it goes through, when the
    names are distinct and none of them is the reserved-prefix form of
    another: a function of the module, builtin or not, that is not
    excluded is saved under the reserved prefix and replaced by its
    wrapper; [save], [load] and [typename] and everything that is not a
    function keep their value. *)
Theorem hook_torch_module_overloads (torch_funcs : list string)
    (torch torch' : torch_namespace) :
  NoDup torch_funcs ->
  (forall a b, In a torch_funcs -> In b torch_funcs -> b <> "old_" ++ a) ->
  hook_torch_module torch_funcs torch = (Ok tt, torch') ->
  forall attr lit,
    In attr torch_funcs ->
    dict_find torch attr = Some lit ->
    (is_function lit = true -> ~ In attr torch_exclude ->
     dict_find torch' attr = Some (OverloadedFunction lit)
     /\ dict_find torch' ("old_" ++ attr) = Some lit)
    /\ (is_function lit = false \/ In attr torch_exclude ->
        dict_find torch' attr = Some lit).
Proof.
  intros Hnd. revert torch. induction Hnd as [|a l Hnotin Hnd IH];
    intros torch Hfree Hrun attr lit Hin Hlit; [contradiction|].
  cbn [hook_torch_module] in Hrun.
  destruct (hook_torch_attr torch a) as [torch1|e] eqn:Hone; [|discriminate].
  assert (Hfree' : forall a0 b, In a0 l -> In b l -> b <> "old_" ++ a0)
    by (intros a0 b Ha0 Hb; apply Hfree; now right).
  assert (Hrest : torch' = snd (hook_torch_module l torch1)) by now rewrite Hrun.
  destruct Hin as [->|Hin].
  - assert (Hkeep : forall k, (k = attr \/ k = "old_" ++ attr) ->
                      dict_find torch' k = dict_find torch1 k).
    { intros k Hk. rewrite Hrest. apply hook_torch_module_frame.
      - destruct Hk as [->| ->]; [assumption|].
        intros H. apply (Hfree attr ("old_" ++ attr)); [now left|now right|reflexivity].
      - intros b Hb. destruct Hk as [->| ->].
        + apply Hfree; [now right|now left].
        + intros H. apply old_prefix_injective in H. subst b. contradiction. }
    unfold hook_torch_attr in Hone. rewrite Hlit in Hone. split.
    + intros Hfun Hex. apply mem_false in Hex. rewrite Hex, Hfun in Hone.
      injection Hone as <-.
      rewrite !Hkeep by tauto. split.
      * apply dict_find_set_same.
      * rewrite dict_find_set_other.
        -- apply dict_find_set_same.
        -- intros H. apply (Hfree attr attr); [now left|now left|now symmetry].
    + intros Hplain. rewrite Hkeep by tauto.
      destruct (mem attr torch_exclude) eqn:Hex; [now injection Hone as <-|].
      destruct Hplain as [Hfun|Hin']; [|apply mem_In in Hin'; congruence].
      rewrite Hfun in Hone. now injection Hone as <-.
  - apply (IH torch1 Hfree' Hrun attr lit Hin).
    rewrite (hook_torch_attr_frame torch torch1 a attr Hone); [assumption| |].
    + intros ->. contradiction.
    + apply Hfree; [now left|now right].
Qed.

Lemma hook_torch_module_overloads_witness :
  exists torch',
    hook_torch_module Example.torch_funcs Example.torch = (Ok tt, torch')
    /\ (dict_find torch' "add" = Some (OverloadedFunction (BuiltinFunction "add"))
        /\ dict_find torch' ("old_" ++ "add") = Some (BuiltinFunction "add"))
    /\ dict_find torch' "save" = Some (ModuleFunction "save")
    /\ dict_find torch' "FloatTensor" = Some (ModuleOther "class FloatTensor").
Proof.
  eexists. split; [vm_compute; reflexivity|].
  assert (Hnd : NoDup Example.torch_funcs)
    by (vm_compute; repeat (constructor; [simpl; intuition discriminate|]);
        constructor).
  assert (Hfree : forall a b, In a Example.torch_funcs -> In b Example.torch_funcs ->
                              b <> "old_" ++ a)
    by (intros a b Ha Hb; vm_compute in Ha, Hb; intuition (subst; discriminate)).
  pose proof (hook_torch_module_overloads Example.torch_funcs Example.torch _
                Hnd Hfree eq_refl) as H.
  split; [|split].
  - apply (H "add" (BuiltinFunction "add")).
    + vm_compute. tauto.
    + reflexivity.
    + reflexivity.
    + vm_compute. intuition discriminate.
  - apply (H "save" (ModuleFunction "save")).
    + vm_compute. tauto.
    + reflexivity.
    + right. vm_compute. tauto.
  - apply (H "FloatTensor" (ModuleOther "class FloatTensor")).
    + vm_compute. tauto.
    + reflexivity.
    + now left.
Defined.

Lemma hook_torch_attr_keeps_present (torch torch' : torch_namespace) (a k : string) :
  hook_torch_attr torch a = Ok torch' ->
  dict_find torch k <> None -> dict_find torch' k <> None.
Proof.
  unfold hook_torch_attr. intros Hrun Hk.
  destruct (mem a torch_exclude); [now injection Hrun as <-|].
  destruct (dict_find torch a) as [lit|]; [|discriminate].
  destruct (is_function lit); injection Hrun as <-; [|assumption].
  destruct (String.eqb_spec k a) as [->|Ha].
  - rewrite dict_find_set_same. discriminate.
  - rewrite dict_find_set_other by assumption.
    destruct (String.eqb_spec k ("old_" ++ a)) as [->|Hold].
    + rewrite dict_find_set_same. discriminate.
    + now rewrite dict_find_set_other.
Qed.

Lemma hook_torch_attr_raises (torch : torch_namespace) (a : string) (e : exn) :
  hook_torch_attr torch a = Raise e ->
  e = AttributeError /\ ~ In a torch_exclude /\ dict_find torch a = None.
Proof.
  unfold hook_torch_attr. destruct (mem a torch_exclude) eqn:Hex; [discriminate|].
  destruct (dict_find torch a) as [lit|].
  - destruct (is_function lit); discriminate.
  - intros [= <-]. repeat split. now apply mem_false.
Qed.

Lemma hook_torch_module_raises (l : list string) :
  forall torch e,
    fst (hook_torch_module l torch) = Raise e ->
    e = AttributeError
    /\ exists a, In a l /\ ~ In a torch_exclude /\ dict_find torch a = None.
Proof.
  induction l as [|a l IH]; intros torch e; [discriminate|].
  cbn [hook_torch_module].
  destruct (hook_torch_attr torch a) as [torch1|e1] eqn:Hone.
  - intros Hrest. destruct (IH torch1 e Hrest) as [-> (b & Hb & Hex & Hmiss)].
    split; [reflexivity|]. exists b. split; [now right|]. split; [assumption|].
    destruct (dict_find torch b) eqn:Hfound; [|reflexivity].
    exfalso. apply (hook_torch_attr_keeps_present torch torch1 a b Hone);
      [rewrite Hfound; discriminate|assumption].
  - cbn [fst]. intros [= <-].
    destruct (hook_torch_attr_raises torch a e1 Hone) as (-> & Hex & Hmiss).
    split; [reflexivity|]. exists a. split; [now left|]. now split.
Qed.

(** When [hook_torch_module] fails. The only exception the pass raises is
    the [AttributeError] of [getattr], and it needs a name of
    [torch_funcs] that is not excluded and that the module does not have;
    provided no name of [torch_funcs] is the reserved-prefix form of
    another, every such name makes the pass fail. The names before the
    failing one stay hooked: a run over [l1 ++ l2] that completes [l1]
    continues as a run over [l2] from the module [l1] left. *)
Theorem hook_torch_module_failure (torch_funcs : list string)
    (torch : torch_namespace) :
  (forall e,
      fst (hook_torch_module torch_funcs torch) = Raise e ->
      e = AttributeError
      /\ exists a, In a torch_funcs /\ ~ In a torch_exclude
                   /\ dict_find torch a = None)
  /\ ((forall a b, In a torch_funcs -> In b torch_funcs -> b <> "old_" ++ a) ->
      forall a,
        In a torch_funcs -> ~ In a torch_exclude -> dict_find torch a = None ->
        fst (hook_torch_module torch_funcs torch) = Raise AttributeError)
  /\ (forall l1 l2 torch1,
         torch_funcs = (l1 ++ l2)%list ->
         hook_torch_module l1 torch = (Ok tt, torch1) ->
         hook_torch_module torch_funcs torch = hook_torch_module l2 torch1).
Proof.
  split; [|split].
  - apply hook_torch_module_raises.
  - revert torch. induction torch_funcs as [|a0 l IH];
      intros torch Hfree a Hin Hex Hmiss; [contradiction|].
    cbn [hook_torch_module].
    destruct (hook_torch_attr torch a0) as [torch1|e1] eqn:Hone.
    + destruct Hin as [->|Hin].
      * exfalso. unfold hook_torch_attr in Hone.
        apply mem_false in Hex. rewrite Hex, Hmiss in Hone. discriminate.
      * apply (IH torch1 (fun x y Hx Hy => Hfree x y (or_intror Hx) (or_intror Hy))
                 a Hin Hex).
        rewrite (hook_torch_attr_frame torch torch1 a0 a Hone); [assumption| |].
        -- intros ->. unfold hook_torch_attr in Hone.
           apply mem_false in Hex. rewrite Hex, Hmiss in Hone. discriminate.
        -- apply Hfree; [now left|now right].
    + cbn [fst]. now destruct (hook_torch_attr_raises torch a0 e1 Hone) as [-> _].
  - intros l1 l2 torch1 ->. revert torch. induction l1 as [|a0 l1 IH];
      intros torch Hrun.
    + cbn in Hrun. injection Hrun as <-. reflexivity.
    + cbn [app hook_torch_module] in *.
      destruct (hook_torch_attr torch a0) as [torch0|e0]; [|discriminate].
      now apply (IH torch0).
Qed.

Lemma hook_torch_module_failure_witness :
  fst (hook_torch_module ["add"; "cat"; "is_tensor"] Example.torch)
  = Raise AttributeError
  /\ hook_torch_module ["add"; "cat"; "is_tensor"] Example.torch
     = hook_torch_module ["cat"; "is_tensor"]
         (snd (hook_torch_module ["add"] Example.torch))
  /\ dict_find (snd (hook_torch_module ["add"; "cat"; "is_tensor"] Example.torch))
       "add"
     = Some (OverloadedFunction (BuiltinFunction "add")).
Proof.
  destruct (hook_torch_module_failure ["add"; "cat"; "is_tensor"] Example.torch)
    as (_ & Hfail & Hsplit).
  split; [|split].
  - apply (Hfail (fun a b Ha Hb =>
                    ltac:(vm_compute in Ha, Hb; intuition (subst; discriminate)))
             "cat").
    + simpl. tauto.
    + vm_compute. intuition discriminate.
    + reflexivity.
  - apply (Hsplit ["add"] ["cat"; "is_tensor"]).
    + reflexivity.
    + vm_compute. reflexivity.
  - vm_compute. reflexivity.
Defined.

(** ** Responses that are incomplete *)

(** A response that carries registration metadata but names no result
    type is not turned into a pointer: the [KeyError] of the second lookup
    is caught like that of the first, and the response dictionary itself
    is returned, with nothing constructed or registered. *)
Theorem response_without_torch_type_is_returned (E : environment)
    (command d : dict) (w : worker_id) (registration : value) (st : state) :
  command_response E w command = VDict d ->
  dict_find d "numeric" = None ->
  dict_find d "registration" = Some registration ->
  dict_find d "torch_type" = None ->
  function_workers E command [w] None st
  = (Ok (VDict d), mk_state (next_id st) (trace st ++ [SentCommand w command])).
Proof.
  intros Hresp Hnum Hregn Htype. cbn [function_workers].
  rewrite bind_run, send_command_run, Hresp.
  unfold process_response, getitem, dict_get. rewrite Hnum. cbv beta iota.
  rewrite bind_run. unfold except_KeyError.
  rewrite bind_run. rewrite Hregn. unfold lift at 1. cbv beta iota.
  rewrite bind_run. rewrite Htype. reflexivity.
Qed.

Lemma response_without_torch_type_is_returned_witness :
  function_workers Example.E_untyped [("command", VStr "add")] [Example.bob] None
    Example.st0
  = (Ok Example.untyped_answer,
     mk_state 100 [SentCommand Example.bob [("command", VStr "add")]]).
Proof.
  eapply (response_without_torch_type_is_returned Example.E_untyped
            [("command", VStr "add")] _ Example.bob _ Example.st0); reflexivity.
Defined.

(** ** Dispatch of methods on a local receiver *)

(** A method called on a receiver that is not a pointer runs locally
    without a command being compiled. Its result is handed back as it is,
    with nothing written to the registry, when it is not an instance of a
    tracked class or when it has an attribute named [owner]; and when the
    original method raises, the exception comes out unchanged. *)
Theorem overload_method_local_plain (E : environment) (method : function)
    (self : torch_obj) (args : list value) (kwargs : dict) (st : state) :
  get_reg is_pointer self = Ok false ->
  (forall result,
      torch_call E method (VObj self :: args) kwargs = Ok result ->
      tracked E result = false
      \/ (exists o, result = VObj o /\ hasattr o "owner" = true) ->
      overload_method E (pass_method_args method) self args kwargs st
      = (Ok result,
         mk_state (next_id st)
           (trace st ++ [Executed method (VObj self :: args) kwargs])))
  /\ (forall e,
         torch_call E method (VObj self :: args) kwargs = Raise e ->
         overload_method E (pass_method_args method) self args kwargs st
         = (Raise e,
            mk_state (next_id st)
              (trace st ++ [Executed method (VObj self :: args) kwargs]))).
Proof.
  intros Hp. split.
  - intros result Hcall Hplain.
    unfold overload_method. rewrite Hp. enter.
    rewrite bind_run, call_original_run. cbn [func pass_method_args].
    rewrite Hcall. unfold register_result.
    destruct result as [| | | | | | |o]; try reflexivity.
    destruct Hplain as [Hun|[o' [[= <-] Hown]]].
    + rewrite Hun. reflexivity.
    + rewrite Hown, andb_false_r. reflexivity.
  - intros e Hcall.
    unfold overload_method. rewrite Hp. enter.
    rewrite bind_run, call_original_run. cbn [func pass_method_args].
    rewrite Hcall. reflexivity.
Qed.

Lemma overload_method_local_plain_witness :
  overload_method Example.E_plain (pass_method_args Example.torch_dot)
    Example.x_local [VObj Example.x_bob] [] Example.st0
  = (Ok (VInt 32),
     mk_state 100
       [Executed Example.torch_dot [VObj Example.x_local; VObj Example.x_bob] []])
  /\ overload_method Example.E_plain (pass_method_args Example.tensor_add)
       Example.x_local [] [] Example.st0
     = (Raise TypeError,
        mk_state 100 [Executed Example.tensor_add [VObj Example.x_local] []]).
Proof.
  split.
  - apply (proj1 (overload_method_local_plain Example.E_plain Example.torch_dot
                    Example.x_local [VObj Example.x_bob] [] Example.st0 eq_refl)).
    + reflexivity.
    + now left.
  - apply (proj2 (overload_method_local_plain Example.E_plain Example.tensor_add
                    Example.x_local [] [] Example.st0 eq_refl)).
    reflexivity.
Defined.

(** ** Methods and the location of their operands *)

(** C1, at the failing input: the method [add] called on the local tensor
    [x_local] with the pointers [x_bob] and [x_carol] as arguments. The
    tensor-like operands of the call include remote ones and their owners
    are three distinct workers; the wrapper of free functions refuses the
    same operands with [NotImplementedError]. The wrapper of methods looks
    at the receiver only: it is not a pointer, so no location is resolved,
    the original method is executed on the three operands and its result
    is registered. *)
Theorem method_on_local_receiver_ignores_multiple_owners :
  exists command,
    compile_command
      (pass_method_args Example.tensor_add
         [VObj Example.x_local; VObj Example.x_bob; VObj Example.x_carol] []) true
    = Ok command
    /\ check_remote (get_tensorvars Example.E command) = true
    /\ get_owners (get_tensorvars Example.E command)
       = (true, [Example.alice; Example.bob; Example.carol])
    /\ overload_function Example.E (pass_func_args Example.torch_add)
         [VObj Example.x_local; VObj Example.x_bob; VObj Example.x_carol] []
         Example.st0
       = (Raise NotImplementedError, Example.st0)
    /\ overload_method Example.E (pass_method_args Example.tensor_add)
         Example.x_local [VObj Example.x_bob; VObj Example.x_carol] [] Example.st0
       = (Ok (VObj (registered_local Example.E 100
                      (mk_torch_obj "FloatTensor" [7; 9] None []))),
          mk_state 101
            [Executed Example.tensor_add
               [VObj Example.x_local; VObj Example.x_bob; VObj Example.x_carol] [];
             Registered (registered_local Example.E 100
                           (mk_torch_obj "FloatTensor" [7; 9] None []))]).
Proof.
  eexists. split; [vm_compute; reflexivity|].
  repeat split; vm_compute; reflexivity.
Qed.

(** C2, at the failing input: the method [add] called on the pointer
    [x_bob] with [x_bob] as argument. A tensor-like operand is remote and
    the owners are the single worker [bob]; the wrapper of free functions
    sends the command for the same operands to [bob]. The wrapper of
    methods gets as far as the loop over the owners and there looks up
    [send_command] on the receiver, a tensor, which has no such attribute:
    the call ends in [AttributeError] and no command has been sent. *)
Theorem method_on_pointer_is_not_forwarded :
  exists command sent st',
    compile_command
      (pass_method_args Example.tensor_add
         [VObj Example.x_bob; VObj Example.x_bob] []) true
    = Ok command
    /\ check_remote (get_tensorvars Example.E command) = true
    /\ get_owners (get_tensorvars Example.E command) = (false, [Example.bob])
    /\ hasattr Example.x_bob "send_command" = false
    /\ overload_method Example.E (pass_method_args Example.tensor_add)
         Example.x_bob [VObj Example.x_bob] [] Example.st0
       = (Raise AttributeError, Example.st0)
    /\ messages Example.st0 = []
    /\ overload_function Example.E (pass_func_args Example.torch_add)
         [VObj Example.x_bob; VObj Example.x_bob] [] Example.st0
       = (Ok (VObj (Example.tensor 77 [Example.bob] true [])), st')
    /\ messages st' = [SentCommand Example.bob sent].
Proof.
  eexists _, _, _. split; [vm_compute; reflexivity|].
  repeat split; vm_compute; reflexivity.
Qed.
